(** * ImagesBatch (dataset/batch_image.py): a shallow embedding

    The Python class [ImagesBatch] keeps three attribute slots (images,
    labels, masks) in [self._data], exposes them through properties, and
    merges the per-item results of a parallel action back into the batch
    with [assemble].  Every method is embedded as a computation in a
    small state-and-exception monad over the batch object: a raised
    exception keeps the state reached so far, as it does in Python.
    The per-item body of [resize] only calls into PIL, scipy and cv2 and
    is not embedded; a parallel action of its kind is [dispatch_assemble]
    over an arbitrary per-item function.  [convert_to_PIL] is not
    embedded either: what it assigns depends on what the decorator of
    [apply_transform] does with failed items when no [post] is named,
    and the decorator is not among the sources.

    The state keeps the value of every attribute, not the identity of
    the object behind it.  Every method but [apply_transform] only
    rebinds attributes, for which the values are all there is to know;
    the one store into an object, on the last line of [apply_transform],
    is followed through the attribute the object was read from. *)

From Stdlib Require Import ZArith Lia.
From stdpp Require Import base option list strings gmap.

Local Open Scope string_scope.
Local Open Scope nat_scope.
Local Set Warnings "-register-all".

(** ** Values *)

(** A numpy array: its shape and its elements in C (row-major) order.
    Elements are integers; dtypes are not distinguished. *)
Record ndarray := NDArray { shape : list nat; elems : list Z }.

Inductive exn_kind :=
| ValueError | IndexError | TypeError | AttributeError | UnboundLocalError.

(** The Python objects that the batch stores and passes around.
    [VImage a] is a [PIL.Image.Image] whose pixel array is [a];
    [VOpaque n] is an object whose inside is not looked at (a bound
    method, the index object). *)
Inductive value :=
| VNone
| VInt (z : Z)
| VStr (s : string)
| VArray (a : ndarray)
| VImage (a : ndarray)
| VExc (k : exn_kind) (args : list value)
| VList (l : list value)
| VTuple (l : list value)
| VOpaque (name : string).

(** An exception instance: its class and its [args] tuple. *)
Record exception := Exception { exc_kind : exn_kind; exc_args : list value }.

(** The result of running a piece of Python: a value or a raised exception. *)
Inductive outcome (A : Type) :=
| Val (a : A)
| Exc (e : exception).
Arguments Val {A} a.
Arguments Exc {A} e.

Definition raise {A} (k : exn_kind) (msg : string) : outcome A :=
  Exc (Exception k [VStr msg]).

Definition is_None (v : value) : bool :=
  match v with VNone => true | _ => false end.

(** ** numpy *)

Definition size_of (s : list nat) : nat := foldr Nat.mul 1 s.

(** A well-formed array holds exactly as many elements as its shape says. *)
Definition valid (a : ndarray) : Prop := length (elems a) = size_of (shape a).

(** [chunk k n l]: the [k]-th block of [n] consecutive elements of [l]. *)
Definition chunk (k n : nat) (l : list Z) : list Z := take n (drop (k * n) l).

(** [a[i]] for an integer [i]: a scalar for a one-dimensional array, the
    [i]-th sub-array otherwise. *)
Definition row (a : ndarray) (i : nat) : value :=
  match shape a with
  | [] => VNone
  | [_] => VInt (nth i (elems a) 0%Z)
  | _ :: s => VArray (NDArray s (chunk i (size_of s) (elems a)))
  end.

(** [np.atleast_3d]: a view with at least three dimensions. *)
Definition atleast_3d (a : ndarray) : ndarray :=
  match shape a with
  | [] => NDArray [1; 1; 1] (elems a)
  | [n] => NDArray [1; n; 1] (elems a)
  | [m; n] => NDArray [m; n; 1] (elems a)
  | _ => a
  end.

(** The length of an array along axis 2. *)
Definition depth (a : ndarray) : nat :=
  match shape a with
  | _ :: _ :: c :: _ => c
  | _ => 0
  end.

(** Two shapes may be joined along axis 2 when they have the same number
    of dimensions and agree on every other axis. *)
Definition joinable (s t : list nat) : bool :=
  match s, t with
  | s0 :: s1 :: _ :: s', t0 :: t1 :: _ :: t' =>
      bool_decide (s0 = t0 ∧ s1 = t1 ∧ s' = t')
  | _, _ => false
  end.

(** [np.concatenate(arrs, 2)]. *)
Definition concatenate2 (arrs : list ndarray) : outcome ndarray :=
  match arrs with
  | [] => raise ValueError "need at least one array to concatenate"
  | a0 :: _ =>
      match shape a0 with
      | s0 :: s1 :: _ :: s' =>
          if forallb (λ a, joinable (shape a0) (shape a)) arrs then
            Val (NDArray (s0 :: s1 :: sum_list (depth <$> arrs) :: s')
                   (flat_map (λ o,
                      flat_map (λ a, chunk o (depth a * size_of s') (elems a)) arrs)
                      (seq 0 (s0 * s1))))
          else
            raise ValueError
              "all the input array dimensions except for the concatenation axis must match exactly"
      | _ => raise ValueError "axis 2 is out of bounds"
      end
  end.

(** [np.dstack(arrs)] on values already turned into arrays. *)
Definition dstack (arrs : list ndarray) : outcome ndarray :=
  concatenate2 (atleast_3d <$> arrs).

(** [np.transpose(a, (2, 0, 1))]: [result[k, i, j] = a[i, j, k]]. *)
Definition transpose201 (a : ndarray) : outcome ndarray :=
  match shape a with
  | [n0; n1; n2] =>
      Val (NDArray [n2; n0; n1]
             (flat_map (λ k,
                flat_map (λ i,
                  (λ j, nth ((i * n1 + j) * n2 + k) (elems a) 0%Z) <$> seq 0 n1)
                  (seq 0 n0))
                (seq 0 n2)))
  | _ => raise ValueError "axes don't match array"
  end.

(** Numpy's broadcasting of data of shape [s] to the shape [t] of equal
    rank: an axis of length one is repeated. *)
Fixpoint broadcast (s t : list nat) (d : list Z) : option (list Z) :=
  match s, t with
  | [], [] => Some d
  | m :: s', n :: t' =>
      if decide (m = n) then
        (λ rs, concat rs) <$> mapM (λ k, broadcast s' t' (chunk k (size_of s') d)) (seq 0 n)
      else if decide (m = 1) then
        (λ r, concat (replicate n r)) <$> broadcast s' t' d
      else None
  | _, _ => None
  end.

(** Leading axes of length one are dropped while the source has more
    axes than the target, missing leading axes are added. *)
Fixpoint align (s : list nat) (n : nat) : list nat :=
  match s with
  | 1 :: s' => if decide (n < length s) then align s' n else replicate (n - length s) 1 ++ s
  | _ => replicate (n - length s) 1 ++ s
  end.

Definition broadcast_to (src : ndarray) (t : list nat) : option (list Z) :=
  broadcast (align (shape src) (length t)) t (elems src).

(** [np.asanyarray] on the values that have an integer-array reading:
    a scalar, an array, the pixel array of a PIL image. *)
Definition asanyarray (v : value) : option ndarray :=
  match v with
  | VInt z => Some (NDArray [] [z])
  | VArray a | VImage a => Some a
  | _ => None
  end.

(** [a[i] = v] on an array: [v] is broadcast to the shape of [a[i]].
    Values without an integer-array reading are refused. *)
Definition np_setitem (a : ndarray) (i : nat) (v : value) : outcome ndarray :=
  match shape a with
  | [] => raise IndexError "too many indices for array"
  | n :: s =>
      if decide (i < n) then
        match asanyarray v with
        | Some src =>
            match broadcast_to src s with
            | Some d =>
                Val (NDArray (n :: s)
                       (take (i * size_of s) (elems a) ++ d
                          ++ drop ((i + 1) * size_of s) (elems a)))
            | None => raise ValueError "could not broadcast input array"
            end
        | None => raise TypeError "value cannot be stored in an integer array"
        end
      else raise IndexError "index is out of bounds for axis 0"
  end.

(** An index taken from an integer index array: negative ones count
    from the end. *)
Definition norm_index (n : nat) (i : Z) : option nat :=
  if decide (0 ≤ i < Z.of_nat n)%Z then Some (Z.to_nat i)
  else if decide (- Z.of_nat n ≤ i < 0)%Z then Some (Z.to_nat (i + Z.of_nat n))
  else None.

(** [a[idx]] for an integer index array [idx]: the rows of [a] named by
    [idx], in the order of [idx]. *)
Definition take_rows (a : ndarray) (idx : list Z) : outcome ndarray :=
  match shape a with
  | [] => raise IndexError "too many indices for array"
  | n :: s =>
      match mapM (norm_index n) idx with
      | Some ps =>
          Val (NDArray (length idx :: s)
                 (flat_map (λ p, chunk p (size_of s) (elems a)) ps))
      | None => raise IndexError "index is out of bounds for axis 0"
      end
  end.

(** ** Python sequences *)

Fixpoint chars (s : string) : list value :=
  match s with
  | EmptyString => []
  | String c s' => VStr (String c EmptyString) :: chars s'
  end.

(** Iteration, as done by [list(x)] and [tuple(x)]. *)
Definition py_iter (v : value) : outcome (list value) :=
  match v with
  | VList l | VTuple l => Val l
  | VStr s => Val (chars s)
  | VArray a =>
      match shape a with
      | [] => raise TypeError "iteration over a 0-d array"
      | n :: _ => Val (row a <$> seq 0 n)
      end
  | _ => raise TypeError "object is not iterable"
  end.

(** [x[i]] for a non-negative integer [i]. *)
Definition py_getitem (v : value) (i : nat) : outcome value :=
  match v with
  | VList l | VTuple l =>
      match l !! i with
      | Some x => Val x
      | None => raise IndexError "index out of range"
      end
  | VStr s =>
      match chars s !! i with
      | Some x => Val x
      | None => raise IndexError "string index out of range"
      end
  | VArray a =>
      match shape a with
      | [] => raise IndexError "too many indices for array"
      | n :: _ =>
          if decide (i < n) then Val (row a i)
          else raise IndexError "index is out of bounds for axis 0"
      end
  | _ => raise TypeError "object is not subscriptable"
  end.

(** [x[idx]] where [idx] is an array of integers.  Only numpy
    arrays accept such a subscript; a Python list or tuple wants an
    integer or a slice. *)
Definition py_getitem_array (v : value) (idx : list Z) : outcome value :=
  match v with
  | VArray a =>
      match take_rows a idx with
      | Val r => Val (VArray r)
      | Exc e => Exc e
      end
  | VList _ | VTuple _ => raise TypeError "indices must be integers or slices"
  | VStr _ => raise TypeError "string indices must be integers"
  | _ => raise TypeError "object is not subscriptable"
  end.

(** [l[i] = v] on a Python list: the index must be in range. *)
Definition list_setitem (l : list value) (i : nat) (v : value) : outcome (list value) :=
  if decide (i < length l) then Val (<[i:=v]> l)
  else raise IndexError "list assignment index out of range".

(** [x[i] = v]: the object [x] after the store. *)
Definition py_setitem (x : value) (i : nat) (v : value) : outcome value :=
  match x with
  | VList l =>
      match list_setitem l i v with
      | Val l' => Val (VList l')
      | Exc e => Exc e
      end
  | VArray a =>
      match np_setitem a i v with
      | Val a' => Val (VArray a')
      | Exc e => Exc e
      end
  | _ => raise TypeError "object does not support item assignment"
  end.

(** The builtin [tuple] called on positional arguments: no argument gives the empty tuple, one
    argument is iterated, more are refused. *)
Definition py_tuple (xs : list value) : outcome (list value) :=
  match xs with
  | [] => Val []
  | [x] => py_iter x
  | _ => raise TypeError "tuple expected at most 1 argument"
  end.

(** ** The batch object and the monad of its methods *)

(** The instance attributes of an [ImagesBatch]: the identifiers held by
    its index, the attribute container [_data], the scratch attribute
    [_new_attr], and whatever other attribute [setattr] has created. *)
Record ImagesBatch := mkBatch {
  index : list Z;
  _data : value;
  _new_attr : value;
  extra : gmap string value
}.

(** A method body: from the batch before to a result, or a raised
    exception, and the batch after. *)
Definition M (A : Type) : Type := ImagesBatch → outcome A * ImagesBatch.

Global Instance M_ret : MRet M := λ A a b, (Val a, b).
Global Instance M_bind : MBind M := λ A B f m b,
  match m b with
  | (Val a, b') => f a b'
  | (Exc e, b') => (Exc e, b')
  end.

Global Instance outcome_ret : MRet outcome := λ A a, Val a.
Global Instance outcome_bind : MBind outcome := λ A B f o,
  match o with
  | Val a => f a
  | Exc e => Exc e
  end.

Definition lift {A} (o : outcome A) : M A := λ b, (o, b).
Definition throw {A} (e : exception) : M A := lift (Exc e).
Definition self : M ImagesBatch := λ b, (Val b, b).

Definition set__data (v : value) : M unit := λ b,
  (Val tt, mkBatch (index b) v (_new_attr b) (extra b)).
Definition set__new_attr (v : value) : M unit := λ b,
  (Val tt, mkBatch (index b) (_data b) v (extra b)).
Definition set_index (ids : list Z) : M unit := λ b,
  (Val tt, mkBatch ids (_data b) (_new_attr b) (extra b)).
Definition set_extra (name : string) (v : value) : M unit := λ b,
  (Val tt, mkBatch (index b) (_data b) (_new_attr b) (<[name:=v]> (extra b))).

(** What a method hands back: the batch itself or [None]. *)
Inductive retval := RSelf | RNone.

(** ** The base class

    [batch.py] and [decorators.py] are not among the sources; what this
    file uses of them is modelled here. *)

(** Modelled from the spec: [Batch.__init__], missing from the sources.
    "[index] supplies [indices]; [preloaded], if given, seeds
    [attributes]." *)
Definition Batch_init (idx : list Z) (preloaded : value) : ImagesBatch :=
  mkBatch idx preloaded VNone ∅.

(** Modelled from the spec: the property [Batch.data], missing from the
    sources: the stored attribute container, [None] while nothing is
    loaded. *)
Definition Batch_data : M value := b ← self; mret (_data b).

(** Modelled from the spec: the property [Batch.indices], missing from
    the sources: the "ordered sequence of unique identifiers", here an
    integer array. *)
Definition indices : M (list Z) := b ← self; mret (index b).

(** Modelled from the spec: [index.get_pos], missing from the sources:
    the position of an identifier in [indices]. *)
Definition get_pos (ix : Z) : M nat :=
  ids ← indices;
  match list_find (λ y, y = ix) ids with
  | Some (p, _) => mret p
  | None => lift (raise IndexError "identifier is not in the index")
  end.

(** Modelled from the spec: the decorator [action], missing from the
    sources: "it has no runtime behavior of its own beyond
    registration/visibility". *)
Definition action {A} (method : A) : A := method.

(** Modelled from the spec: the fan-out of [inbatch_parallel], missing
    from the sources.  "Every input at position p produces exactly one
    Outcome at position p"; each call "records a Success with the
    returned value or a Failure capturing the raised error", and a
    failure does not stop the other items.  The calls are run in the
    order of the inputs. *)
Fixpoint dispatch {X A} (fn : X → M A) (inputs : list X) : M (list (outcome A)) :=
  match inputs with
  | [] => mret []
  | x :: rest => λ b,
      let (o, b1) := fn x b in
      let (os, b2) := dispatch fn rest b1 in
      match os with
      | Val l => (Val (o :: l), b2)
      | Exc e => (Exc e, b2)
      end
  end.

(** What one item of a parallel action produces when it does not fail:
    a PIL image, a numpy array or an integer scalar. *)
Inductive payload :=
| PImage (a : ndarray)
| PArray (a : ndarray)
| PInt (z : Z).

Definition payload_value (p : payload) : value :=
  match p with
  | PImage a => VImage a
  | PArray a => VArray a
  | PInt z => VInt z
  end.

(** An entry of [all_res] as a Python object: the result, or the
    exception instance that stands for a failed item. *)
Definition result_value (r : outcome payload) : value :=
  match r with
  | Val p => payload_value p
  | Exc e => VExc (exc_kind e) (exc_args e)
  end.

Definition is_failure {A} (r : outcome A) : bool :=
  match r with Exc _ => true | Val _ => false end.

(** Modelled from the spec: [decorators.any_action_failed], missing from
    the sources: "if any Outcome is a Failure". *)
Definition any_action_failed {A} (all_res : list (outcome A)) : bool :=
  existsb is_failure all_res.

(** Modelled from the spec: the failed items of [all_res] as "the full
    list of (position, error) pairs for every failed item". *)
Fixpoint failures_from {A} (p : nat) (all_res : list (outcome A)) : list (nat * exception) :=
  match all_res with
  | [] => []
  | Exc e :: rest => (p, e) :: failures_from (S p) rest
  | Val _ :: rest => failures_from (S p) rest
  end.

Definition failures {A} (all_res : list (outcome A)) : list (nat * exception) :=
  failures_from 0 all_res.

Definition failure_value (f : nat * exception) : value :=
  VTuple [VInt (Z.of_nat f.1); VExc (exc_kind f.2) (exc_args f.2)].

(** Modelled from the spec: [Batch.get_errors], missing from the
    sources: the list of [failures] as a Python list. *)
Definition get_errors {A} (all_res : list (outcome A)) : M value :=
  mret (VList (failure_value <$> failures all_res)).

(** ** The class [ImagesBatch] *)

(** [ImagesBatch.__init__]: the base initialiser, then [_new_attr = None]. *)
Definition __init__ (idx : list Z) (preloaded : value) : ImagesBatch :=
  let b := Batch_init idx preloaded in
  mkBatch (index b) (_data b) VNone (extra b).

(** The property [data]: the base container, or three empty slots. *)
Definition data : M value :=
  d ← Batch_data;
  mret (if is_None d then VTuple [VNone; VNone; VNone] else d).

(** The three getters read [self.data[k] if self.data is not None else None]. *)
Definition read_slot (k : nat) : M value :=
  d ← data;
  if is_None d then mret VNone
  else d' ← data; lift (py_getitem d' k).

(** The three setters copy the container into a list, store into it
    at a fixed position and keep the list. *)
Definition write_slot (k : nat) (v : value) : M unit :=
  d ← data;
  l ← lift (py_iter d);
  l' ← lift (list_setitem l k v);
  set__data (VList l').

Definition images : M value := read_slot 0.
Definition images_setter (v : value) : M unit := write_slot 0 v.

Definition labels : M value := read_slot 1.
Definition labels_setter (v : value) : M unit := write_slot 1 v.

Definition masks : M value := read_slot 2.
Definition masks_setter (v : value) : M unit := write_slot 3 v.

(** The names defined by the class that are not properties. *)
Definition method_names : list string :=
  ["assemble"; "convert_to_PIL"; "resize"; "load"; "dump";
   "apply_transform"; "apply_transform_all"; "get_errors"].

(** [getattr(self, name)]: properties first, then instance attributes,
    then the methods of the class. *)
Definition py_getattr (name : value) : M value :=
  match name with
  | VStr s =>
      if decide (s = "data") then data
      else if decide (s = "images") then images
      else if decide (s = "labels") then labels
      else if decide (s = "masks") then masks
      else if decide (s = "indices") then
        ids ← indices; mret (VArray (NDArray [length ids] ids))
      else if decide (s = "index") then mret (VOpaque "index")
      else if decide (s = "_data") then b ← self; mret (_data b)
      else if decide (s = "_new_attr") then b ← self; mret (_new_attr b)
      else
        b ← self;
        match extra b !! s with
        | Some v => mret v
        | None =>
            if decide (s ∈ method_names) then mret (VOpaque s)
            else lift (raise AttributeError "object has no such attribute")
        end
  | _ => lift (raise TypeError "attribute name must be string")
  end.

(** [setattr(self, name, v)]: the three slots go through their setters,
    [data] and [indices] are read-only properties, the index is fixed
    for the lifetime of the batch, any other name is an instance
    attribute. *)
Definition py_setattr (name : value) (v : value) : M unit :=
  match name with
  | VStr s =>
      if decide (s = "images") then images_setter v
      else if decide (s = "labels") then labels_setter v
      else if decide (s = "masks") then masks_setter v
      else if decide (s = "data") then lift (raise AttributeError "can't set attribute")
      else if decide (s = "indices") then lift (raise AttributeError "can't set attribute")
      else if decide (s = "index") then lift (raise AttributeError "can't set attribute")
      else if decide (s = "_data") then set__data v
      else if decide (s = "_new_attr") then set__new_attr v
      else set_extra s v
  | _ => lift (raise TypeError "attribute name must be string")
  end.

(** [np.dstack(all_res)]: every entry is read as an array first.  After
    the failure check no exception instance is left among the entries;
    the model refuses one with a [TypeError]. *)
Definition payload_array (p : payload) : ndarray :=
  match p with
  | PImage a | PArray a => a
  | PInt z => NDArray [] [z]
  end.

Definition result_array (r : outcome payload) : outcome ndarray :=
  match r with
  | Val p => Val (payload_array p)
  | Exc _ => raise TypeError "exception instance among the results"
  end.

Definition np_dstack (all_res : list (outcome payload)) : outcome ndarray :=
  arrs ← mapM result_array all_res; dstack arrs.

Definition isinstance_Image (v : value) : bool :=
  match v with VImage _ => true | _ => false end.

(** [kwargs.get('attr', 'images')]: the attribute that [assemble]
    assigns. *)
Definition target_attr (kwargs : gmap string value) : value :=
  default (VStr "images") (kwargs !! "attr").

(** [assemble]: refuse the results when an item failed; otherwise keep a
    list of PIL images as it is and stack anything else into one
    array. *)
Definition assemble (all_res : list (outcome payload))
    (args : list value) (kwargs : gmap string value) : M retval :=
  if any_action_failed all_res then
    errors ← get_errors all_res;
    throw (Exception ValueError [VStr "Could not assemble the batch"; errors])
  else
    let attr := target_attr kwargs in
    let res := VList (result_value <$> all_res) in
    first ← lift (py_getitem res 0);
    (if isinstance_Image first then py_setattr attr res
     else
       stacked ← lift (np_dstack all_res);
       arr ← lift (transpose201 stacked);
       py_setattr attr (VArray arr));;
    mret RSelf.

(** [load]: without a format, index the source, or each of up to three
    sources, by the identifiers of the batch. *)
Definition load (src : value) (fmt : value) : M retval := action (
  if is_None fmt then
    (match src with
     | VTuple items =>
         slots ← mapM (λ i,
           if decide (i < length items) then
             c ← lift (py_getitem src i);
             ids ← indices;
             lift (py_getitem_array c ids)
           else mret VNone) (seq 0 3);
         set__data (VTuple slots)
     | _ =>
         ids ← indices;
         x ← lift (py_getitem_array src ids);
         set__data (VTuple [x; VNone; VNone])
     end);;
    mret RSelf
  else throw (Exception ValueError [VStr "Unsupported format:"; fmt])).

(** [dump]: nothing is saved. *)
Definition dump (dst : value) (fmt : value) : M retval := action (mret RSelf).

(** A callable handed to the batch is arbitrary Python code: it may be a
    bound method of the batch or a closure over it, and it may change in
    place an object that the batch holds.  It is a computation over the
    batch, from positional and keyword arguments to a result or a raised
    exception. *)
Definition callable : Type := list value → gmap string value → M value.

(** A callable that computes its result from its arguments alone and
    touches neither the batch nor the objects it holds. *)
Definition pure_callable (f : list value → gmap string value → outcome value) : callable :=
  λ args kwargs, lift (f args kwargs).

(** Reading a local variable that may not have been assigned yet. *)
Definition load_local {A} (name : string) (x : option A) : M A :=
  match x with
  | Some a => mret a
  | None => lift (raise UnboundLocalError
                    ("local variable '" ++ name ++ "' referenced before assignment"))
  end.

(** [dst_attr[pos] = v] where [dst_attr] is the object that
    [getattr(self, dst)] gave: a list or an array is changed in place,
    so the change shows in the attribute [dst] that holds it.  Whether
    another attribute holds the very same object is not recorded in the
    state, so the store is followed through [dst] alone: after a store
    only what [dst] reads is known. *)
Definition put_back (dst : string) (obj : value) : M unit :=
  let slot k : M unit :=
    b ← self;
    match _data b with
    | VList l => set__data (VList (<[k:=obj]> l))
    | VTuple l => set__data (VTuple (<[k:=obj]> l))
    | VArray a =>
        match np_setitem a k obj with
        | Val a' => set__data (VArray a')
        | Exc _ => mret tt
        end
    | _ => mret tt
    end in
  if decide (dst = "images") then slot 0
  else if decide (dst = "labels") then slot 1
  else if decide (dst = "masks") then slot 2
  else if decide (dst = "data") then
    b ← self; if is_None (_data b) then mret tt else set__data obj
  else if decide (dst = "_data") then set__data obj
  else if decide (dst = "_new_attr") then set__new_attr obj
  else if decide (dst = "indices") then
    match obj with VArray a => set_index (elems a) | _ => mret tt end
  else
    b ← self;
    match extra b !! dst with
    | Some _ => set_extra dst obj
    | None => mret tt
    end.

Definition store_item (dst : value) (dst_attr : value) (pos : nat) (v : value) : M unit :=
  obj ← lift (py_setitem dst_attr pos v);
  match dst with
  | VStr s => put_back s obj
  | _ => mret tt
  end.

(** [apply_transform], the body run for one identifier [ix].  The local
    [pos] is assigned on the line before last only; the destination
    object is read before [func] is called and stored into afterwards. *)
Definition apply_transform (ix : Z) (src dst : value) (func : callable)
    (args : list value) (kwargs : gmap string value) : M retval :=
  let pos : option nat := None in
  all_args ← (if is_None src then mret args
              else
                src_attr ← py_getattr src;
                p ← load_local "pos" pos;
                item ← lift (py_getitem src_attr p);
                lift (py_tuple (item :: args)));
  dst_attr ← py_getattr dst;
  pos ← get_pos ix;
  v ← func all_args kwargs;
  store_item dst dst_attr pos v;;
  mret RNone.

(** [apply_transform_all]: the result of [func] is bound to the local
    [dst_attr]; the body ends without a [return]. *)
Definition apply_transform_all (src dst : value) (func : callable)
    (args : list value) (kwargs : gmap string value) : M retval := action (
  all_args ← (if is_None src then mret args
              else
                src_attr ← py_getattr src;
                lift (py_tuple (src_attr :: args)));
  dst_attr ← py_getattr dst;
  dst_attr ← func all_args kwargs;
  mret RNone).

(** The fan-out of [apply_transform] over the identifiers of the batch,
    as [inbatch_parallel(init='indices')] arranges it. *)
Definition apply_transform_each (src dst : value) (func : callable)
    (args : list value) (kwargs : gmap string value) : M (list (outcome retval)) :=
  action (
    ids ← indices;
    dispatch (λ ix, apply_transform ix src dst func args kwargs) ids).


(** [PIL.Image.fromarray] as a callable: an image around the array. *)
Definition fromarray : callable := pure_callable (λ args _,
  match args with
  | [VArray a] => Val (VImage a)
  | _ => raise TypeError "fromarray expects one array"
  end).

(** The bound method [self.load] as a callable: [load(src, fmt=None)]
    takes [src] and [fmt], each by position or by keyword; a missing
    [src], a parameter given twice and any other argument are refused.
    It gives back the batch. *)
Definition bound_load : callable := λ args kwargs,
  let run src fmt : M value := load src fmt;; mret (VOpaque "self") in
  if bool_decide (dom kwargs ⊆ ({["src"; "fmt"]} : gset string)) then
    match args, kwargs !! "src", kwargs !! "fmt" with
    | [], Some src, fmt => run src (default VNone fmt)
    | [src], None, fmt => run src (default VNone fmt)
    | [src; fmt], None, None => run src fmt
    | [], None, _ =>
        lift (raise TypeError "load() missing 1 required positional argument: 'src'")
    | [_], Some _, _ | [_; _], Some _, _ =>
        lift (raise TypeError "load() got multiple values for argument 'src'")
    | [_; _], None, Some _ =>
        lift (raise TypeError "load() got multiple values for argument 'fmt'")
    | _, _, _ => lift (raise TypeError "load() takes from 2 to 3 positional arguments")
    end
  else lift (raise TypeError "load() got an unexpected keyword argument").

(** ** Notions used in the statements *)

(** A computation that only reads the batch. *)
Definition reads_only {A} (m : M A) : Prop := ∀ b, (m b).2 = b.

(** The attribute container as the setters see it through [list(self.data)],
    when [_data] is unset or a tuple or list. *)
Definition slots (b : ImagesBatch) : option (list value) :=
  match _data b with
  | VNone => Some [VNone; VNone; VNone]
  | VTuple l | VList l => Some l
  | _ => None
  end.

(** The batch with another attribute container. *)
Definition with_data (b : ImagesBatch) (d : value) : ImagesBatch :=
  mkBatch (index b) d (_new_attr b) (extra b).

(** The exceptions among the results, in order. *)
Definition errors_of {A} (all_res : list (outcome A)) : list exception :=
  omap (λ r, match r with Exc e => Some e | Val _ => None end) all_res.

(** A batch of three items, just constructed. *)
Definition fresh3 : ImagesBatch := __init__ [0; 1; 2]%Z VNone.

(** A callable that returns the same value whatever it is given. *)
Definition constantly (v : value) : callable := pure_callable (λ _ _, Val v).




(** One slot of the tuple that [load] builds. *)
Definition loaded_slot (ids : list Z) (c : option value) : outcome value :=
  match c with
  | Some v => py_getitem_array v ids
  | None => Val VNone
  end.

(** Slot [i] after [load]: container [i] indexed by the identifiers,
    [None] where the tuple has no container [i]. *)
Definition slot_value (ids : list Z) (arrs : list ndarray) (i : nat) : value :=
  match arrs !! i with
  | Some a =>
      match take_rows a ids with
      | Val r => VArray r
      | Exc _ => VNone
      end
  | None => VNone
  end.

(** The batch after [load] of a tuple of arrays. *)
Definition loaded (b : ImagesBatch) (arrs : list ndarray) : ImagesBatch :=
  with_data b (VTuple [slot_value (index b) arrs 0; slot_value (index b) arrs 1;
                       slot_value (index b) arrs 2]).

(** A batch of three items whose identifiers are not in position order. *)
Definition shuffled3 : ImagesBatch := __init__ [2; 0; 1]%Z VNone.

(** The elements of [np.dstack] of two-dimensional arrays over a grid
    of [m] positions: position by position, one element of each array. *)
Definition joined (arrs : list ndarray) (m : nat) : list Z :=
  flat_map (λ o, flat_map (λ a, chunk o 1 (elems a)) arrs) (seq 0 m).

(** ** Notions used in the further properties *)

(** A computation that, when it raises, has changed nothing. *)
Definition all_or_nothing {A} (m : M A) : Prop :=
  ∀ b e b', m b = (Exc e, b') → b' = b.

(** A computation that always returns. *)
Definition never_raises {A} (m : M A) : Prop :=
  ∀ b, ∃ a b', m b = (Val a, b').

(** [isinstance(src, tuple)]. *)
Definition is_tuple (v : value) : bool :=
  match v with VTuple _ => true | _ => false end.

(** What [load] stores for a source, when every subscript succeeds. *)
Definition loaded_data (ids : list Z) (src : value) : outcome value :=
  match src with
  | VTuple items =>
      s ← mapM (λ i, loaded_slot ids (items !! i)) (seq 0 3); mret (VTuple s)
  | _ => x ← py_getitem_array src ids; mret (VTuple [x; VNone; VNone])
  end.

(** Channel [k] of pixel data with [c] channels over [m] pixels: the
    elements at the flat positions [k], [c + k], [2c + k], ... *)
Definition plane (m c k : nat) (l : list Z) : list Z :=
  (λ o, nth (o * c + k) l 0%Z) <$> seq 0 m.

(** All the channels of an array, one plane after the other. *)
Definition planes (m c : nat) (a : ndarray) : list Z :=
  flat_map (λ k, plane m c k (elems a)) (seq 0 c).

(** * Properties *)

(** ** Running monadic code *)

Lemma bind_val {A B} (m : M A) (f : A → M B) b a b' :
  m b = (Val a, b') → (m ≫= f) b = f a b'.
Proof. intros H. unfold mbind, M_bind. by rewrite H. Qed.

Lemma bind_exc {A B} (m : M A) (f : A → M B) b e b' :
  m b = (Exc e, b') → (m ≫= f) b = (Exc e, b').
Proof. intros H. unfold mbind, M_bind. by rewrite H. Qed.

Lemma reads_only_ret {A} (a : A) : reads_only (mret a).
Proof. done. Qed.

Lemma reads_only_lift {A} (o : outcome A) : reads_only (lift o).
Proof. done. Qed.

Lemma reads_only_self : reads_only self.
Proof. done. Qed.

Lemma reads_only_bind {A B} (m : M A) (f : A → M B) :
  reads_only m → (∀ a, reads_only (f a)) → reads_only (m ≫= f).
Proof.
  intros Hm Hf b. unfold mbind, M_bind.
  specialize (Hm b). destruct (m b) as [[a|e] b1]; simpl in *; subst.
  - apply Hf.
  - done.
Qed.

Lemma reads_only_run {A} (m : M A) b : reads_only m → m b = ((m b).1, b).
Proof. intros H. specialize (H b). destruct (m b); simpl in *; by subst. Qed.

Create HintDb reads.
#[export] Hint Resolve reads_only_ret reads_only_lift reads_only_self : reads.

Ltac reads :=
  repeat first
    [ apply reads_only_ret | apply reads_only_lift | apply reads_only_self
    | apply reads_only_bind; [| intros ? ]
    | solve [ auto with reads ]
    | match goal with
      | |- reads_only (if ?c then _ else _) => destruct c
      | |- reads_only (match ?x with _ => _ end) => destruct x
      end ].

Lemma reads_only_Batch_data : reads_only Batch_data.
Proof. unfold Batch_data. reads. Qed.
#[export] Hint Resolve reads_only_Batch_data : reads.

Lemma reads_only_data : reads_only data.
Proof. unfold data. reads. Qed.
#[export] Hint Resolve reads_only_data : reads.

Lemma reads_only_read_slot k : reads_only (read_slot k).
Proof. unfold read_slot. reads. Qed.
#[export] Hint Resolve reads_only_read_slot : reads.

Lemma reads_only_indices : reads_only indices.
Proof. unfold indices. reads. Qed.
#[export] Hint Resolve reads_only_indices : reads.

Lemma reads_only_getattr name : reads_only (py_getattr name).
Proof. unfold py_getattr, images, labels, masks. reads. Qed.
#[export] Hint Resolve reads_only_getattr : reads.

Lemma reads_only_get_pos ix : reads_only (get_pos ix).
Proof. unfold get_pos. reads. Qed.
#[export] Hint Resolve reads_only_get_pos : reads.

Lemma reads_only_load_local {A} name (x : option A) : reads_only (load_local name x).
Proof. unfold load_local. reads. Qed.
#[export] Hint Resolve reads_only_load_local : reads.

(** ** The properties over an unloaded batch *)

Lemma fresh_batch_unloaded idx : _data (__init__ idx VNone) = VNone.
Proof. done. Qed.

(** C10: when the underlying store [_data] is unset, [data] is the tuple
    [(None, None, None)], and reading [images], [labels] or [masks]
    gives [None] without raising. *)
Theorem unloaded_batch_reads_None (b : ImagesBatch) (H : _data b = VNone) :
  data b = (Val (VTuple [VNone; VNone; VNone]), b)
  ∧ images b = (Val VNone, b)
  ∧ labels b = (Val VNone, b)
  ∧ masks b = (Val VNone, b).
Proof.
  assert (Hd : data b = (Val (VTuple [VNone; VNone; VNone]), b)).
  { unfold data, Batch_data, self, mbind, M_bind, mret, M_ret. by rewrite H. }
  split; [done|].
  unfold images, labels, masks, read_slot.
  repeat split; rewrite (bind_val _ _ _ _ _ Hd); simpl;
    by rewrite (bind_val _ _ _ _ _ Hd).
Qed.

Lemma unloaded_batch_reads_None_witness :
  _data fresh3 = VNone
  ∧ images fresh3 = (Val VNone, fresh3) ∧ masks fresh3 = (Val VNone, fresh3).
Proof.
  split; [reflexivity|].
  pose proof (unloaded_batch_reads_None fresh3 eq_refl) as H.
  split; apply H.
Defined.

(** ** The slots and their setters *)

Lemma data_slots b l :
  slots b = Some l →
  ∃ d, data b = (Val d, b) ∧ py_iter d = Val l ∧ is_None d = false
       ∧ ∀ k, py_getitem d k = match l !! k with
                               | Some x => Val x
                               | None => raise IndexError "index out of range"
                               end.
Proof.
  unfold slots, data, Batch_data, self, mbind, M_bind, mret, M_ret.
  destruct (_data b) eqn:E; intros [= <-]; simpl; eauto 10.
Qed.

Lemma read_slot_slots b l k x :
  slots b = Some l → l !! k = Some x → read_slot k b = (Val x, b).
Proof.
  intros Hs Hk. destruct (data_slots b l Hs) as (d & Hd & _ & Hn & Hg).
  unfold read_slot. rewrite (bind_val _ _ _ _ _ Hd), Hn.
  rewrite (bind_val _ _ _ _ _ Hd). unfold lift. by rewrite Hg, Hk.
Qed.

Lemma write_slot_slots b l k v :
  slots b = Some l →
  write_slot k v b =
    if decide (k < length l) then (Val tt, with_data b (VList (<[k:=v]> l)))
    else (raise IndexError "list assignment index out of range", b).
Proof.
  intros Hs. destruct (data_slots b l Hs) as (d & Hd & Hi & _ & _).
  unfold write_slot. rewrite (bind_val _ _ _ _ _ Hd).
  unfold lift, mbind at 1, M_bind. rewrite Hi.
  unfold list_setitem, mbind, M_bind. by destruct (decide (k < length l)).
Qed.

Lemma slots_with_data b l : slots (with_data b (VList l)) = Some l.
Proof. done. Qed.

(** The container has three slots on a fresh batch and after every
    setter and every [load] of a tuple. *)
Lemma slots_fresh idx : slots (__init__ idx VNone) = Some [VNone; VNone; VNone].
Proof. done. Qed.

Lemma slots_loaded b arrs :
  slots (loaded b arrs)
  = Some [slot_value (index b) arrs 0; slot_value (index b) arrs 1;
          slot_value (index b) arrs 2].
Proof. done. Qed.

Lemma write_slot_keeps_length b l k v b' :
  slots b = Some l → write_slot k v b = (Val tt, b') →
  ∃ l', slots b' = Some l' ∧ length l' = length l.
Proof.
  intros Hs. rewrite (write_slot_slots _ _ _ _ Hs).
  case_decide; [|done]. intros [= <-].
  exists (<[k:=v]> l). split; [done|]. apply length_insert.
Qed.

(** With a fourth slot the value lands in position 3 and the masks
    getter, reading position 2, does not see it. *)
Lemma masks_setter_four_slots b x0 x1 x2 x3 v :
  slots b = Some [x0; x1; x2; x3] →
  masks_setter v b = (Val tt, with_data b (VList [x0; x1; x2; v]))
  ∧ masks (with_data b (VList [x0; x1; x2; v])) = (Val x2, with_data b (VList [x0; x1; x2; v])).
Proof.
  intros Hs. split.
  - unfold masks_setter. by rewrite (write_slot_slots _ _ _ _ Hs).
  - by apply (read_slot_slots _ [x0; x1; x2; v]).
Qed.

(** C5: the masks setter stores at position 3 of a list copy of the
    container, whatever its length, while the masks getter reads
    position 2.  A container with more than three slots receives the
    value in position 3 and the getter goes on reading what it read
    before; on the default three slots position 3 is one past the end,
    so the store is refused with [IndexError], nothing is written, the
    batch is left as it was and all three getters read as before. *)
Theorem masks_setter_position_3 (b : ImagesBatch) (l : list value) (v : value)
    (H : slots b = Some l) :
  masks_setter v b
  = (if decide (3 < length l)
     then (Val tt, with_data b (VList (<[3:=v]> l)))
     else (raise IndexError "list assignment index out of range", b))
  ∧ (∀ b', masks_setter v b = (Val tt, b') →
       slots b' = Some (<[3:=v]> l) ∧ masks b' = ((masks b).1, b'))
  ∧ (∀ x0 x1 x2, l = [x0; x1; x2] →
       masks_setter v b = (raise IndexError "list assignment index out of range", b)
       ∧ images b = (Val x0, b) ∧ labels b = (Val x1, b) ∧ masks b = (Val x2, b)).
Proof.
  assert (Hrun : masks_setter v b
    = (if decide (3 < length l)
       then (Val tt, with_data b (VList (<[3:=v]> l)))
       else (raise IndexError "list assignment index out of range", b))).
  { unfold masks_setter. by rewrite (write_slot_slots _ _ _ _ H). }
  split; [exact Hrun|]. split.
  - intros b'. rewrite Hrun. case_decide as Hlen; [|done]. intros [= <-].
    split; [done|].
    destruct (lookup_lt_is_Some_2 l 2 ltac:(lia)) as [x2 Hx2].
    unfold masks. rewrite (read_slot_slots b l 2 x2 H Hx2). simpl.
    apply (read_slot_slots _ (<[3:=v]> l)); [done|].
    by rewrite list_lookup_insert_ne.
  - intros x0 x1 x2 ->. split; [by rewrite Hrun|].
    split; [|split].
    + by apply (read_slot_slots _ [x0; x1; x2]).
    + by apply (read_slot_slots _ [x0; x1; x2]).
    + by apply (read_slot_slots _ [x0; x1; x2]).
Qed.

Lemma masks_setter_position_3_witness :
  (slots fresh3 = Some [VNone; VNone; VNone]
   ∧ masks_setter (VInt 7) fresh3
     = (raise IndexError "list assignment index out of range", fresh3))
  ∧ (slots (with_data fresh3 (VList [VInt 0; VInt 1; VInt 2; VInt 3; VInt 4]))
     = Some [VInt 0; VInt 1; VInt 2; VInt 3; VInt 4]
     ∧ masks_setter (VInt 7)
         (with_data fresh3 (VList [VInt 0; VInt 1; VInt 2; VInt 3; VInt 4]))
       = (Val tt, with_data fresh3 (VList [VInt 0; VInt 1; VInt 2; VInt 7; VInt 4]))).
Proof.
  split; (split; [reflexivity|]).
  - destruct (masks_setter_position_3 fresh3 [VNone; VNone; VNone] (VInt 7) eq_refl)
      as [Hrun _].
    exact Hrun.
  - destruct (masks_setter_position_3
                (with_data fresh3 (VList [VInt 0; VInt 1; VInt 2; VInt 3; VInt 4]))
                [VInt 0; VInt 1; VInt 2; VInt 3; VInt 4] (VInt 7) eq_refl)
      as [Hrun _].
    exact Hrun.
Defined.

(** On a fresh batch, whose container is the default three slots, the
    masks setter writes nothing: it raises, and no position of the
    container holds the value afterwards. *)
Lemma masks_setter_writes_nothing :
  slots fresh3 = Some [VNone; VNone; VNone]
  ∧ masks_setter (VInt 7) fresh3
    = (raise IndexError "list assignment index out of range", fresh3)
  ∧ (slots (masks_setter (VInt 7) fresh3).2 ≫= (.!! 3)) = None
  ∧ VInt 7 ∉ default [] (slots (masks_setter (VInt 7) fresh3).2).
Proof.
  split; [reflexivity|]. split; [reflexivity|]. split; [reflexivity|].
  simpl. rewrite !elem_of_cons, elem_of_nil. by intros [?|[?|[?|?]]].
Qed.

(** ** [load] and [dump] *)

(** C7: with a format that is not [None], [load] raises the
    unsupported-format [ValueError] and leaves the batch as it was. *)
Theorem load_unsupported_format (b : ImagesBatch) (src fmt : value)
    (H : fmt ≠ VNone) :
  load src fmt b = (Exc (Exception ValueError [VStr "Unsupported format:"; fmt]), b).
Proof. unfold load, action. by destruct fmt. Qed.

Lemma load_unsupported_format_witness :
  VStr "blosc" ≠ VNone
  ∧ load (VTuple []) (VStr "blosc") fresh3
    = (Exc (Exception ValueError [VStr "Unsupported format:"; VStr "blosc"]), fresh3).
Proof.
  split; [discriminate|].
  apply (load_unsupported_format fresh3 (VTuple []) (VStr "blosc")). discriminate.
Defined.

Lemma dump_returns_self b dst fmt : dump dst fmt b = (Val RSelf, b).
Proof. done. Qed.

(** ** [apply_transform_all] *)

(** The arguments that [apply_transform_all] builds for [func]: reading
    the source attribute changes nothing. *)
Lemma apply_transform_all_run b src dst func args kwargs :
  apply_transform_all src dst func args kwargs b
  = match (if is_None src then Val args
           else match (py_getattr src b).1 with
                | Val src_attr => py_tuple (src_attr :: args)
                | Exc e => Exc e
                end) with
    | Val all_args =>
        match (py_getattr dst b).1 with
        | Val _ =>
            match func all_args kwargs b with
            | (Val _, b1) => (Val RNone, b1)
            | (Exc e, b1) => (Exc e, b1)
            end
        | Exc e => (Exc e, b)
        end
    | Exc e => (Exc e, b)
    end.
Proof.
  unfold apply_transform_all, action.
  assert (Hrest : ∀ all_args,
    (py_getattr dst ≫= λ _, func all_args kwargs ≫= λ _, mret RNone) b
    = match (py_getattr dst b).1 with
      | Val _ =>
          match func all_args kwargs b with
          | (Val _, b1) => (Val RNone, b1)
          | (Exc e, b1) => (Exc e, b1)
          end
      | Exc e => (Exc e, b)
      end).
  { intros all_args. unfold mbind at 1, M_bind at 1.
    rewrite (reads_only_run (py_getattr dst) b (reads_only_getattr dst)).
    destruct (py_getattr dst b).1; [|done].
    unfold mbind, M_bind. by destruct (func all_args kwargs b) as [[?|?] ?]. }
  destruct (is_None src).
  - unfold mbind at 1, M_bind at 1. simpl. apply Hrest.
  - unfold mbind at 1, M_bind at 1. unfold mbind at 1, M_bind at 1.
    pose proof (reads_only_getattr src b) as Hb.
    destruct (py_getattr src b) as [[src_attr|e] b0]; cbn [fst snd] in *; subst b0;
      [|done].
    unfold lift at 1. destruct (py_tuple (src_attr :: args)); [|done].
    apply Hrest.
Qed.

(** C9: [apply_transform_all] writes nothing of its own.  When it does
    not raise, [func] was called once, on the batch as it was, and the
    batch afterwards is exactly as that call left it: the value that
    [func] computed went into a local variable only.  The attribute
    containers are therefore unchanged whenever [func] itself leaves the
    batch alone; a [func] with an effect on the batch shows through. *)
Theorem apply_transform_all_frame (b b' : ImagesBatch) (src dst : value)
    (func : callable) (args : list value) (kwargs : gmap string value) (r : retval)
    (H : apply_transform_all src dst func args kwargs b = (Val r, b')) :
  (∃ all_args v, func all_args kwargs b = (Val v, b')
                 ∧ (src = VNone → all_args = args))
  ∧ ((∀ all_args, (func all_args kwargs b).2 = b) →
       b' = b ∧ images b' = images b ∧ labels b' = labels b ∧ masks b' = masks b).
Proof.
  assert (Hcall : ∃ all_args v, func all_args kwargs b = (Val v, b')
                                ∧ (src = VNone → all_args = args)).
  { rewrite apply_transform_all_run in H.
    destruct (if is_None src then Val args else _) as [all_args|] eqn:Hargs; [|done].
    destruct (py_getattr dst b).1; [|done].
    destruct (func all_args kwargs b) as [[v|e] b1] eqn:Hf; [|done].
    injection H as _ <-. exists all_args, v. split; [done|].
    intros ->. simpl in Hargs. by injection Hargs as <-. }
  split; [exact Hcall|].
  intros Hpure. destruct Hcall as (all_args & v & Hf & _).
  specialize (Hpure all_args). rewrite Hf in Hpure. simpl in Hpure. by subst.
Qed.

Lemma apply_transform_all_frame_witness :
  apply_transform_all VNone (VStr "images") (constantly (VInt 5)) [VInt 1] ∅ fresh3
    = (Val RNone, fresh3)
  ∧ (∃ all_args v, constantly (VInt 5) all_args ∅ fresh3 = (Val v, fresh3)
                   ∧ (VNone = VNone → all_args = [VInt 1])).
Proof.
  split; [reflexivity|].
  destruct (apply_transform_all_frame fresh3 fresh3 VNone (VStr "images")
              (constantly (VInt 5)) [VInt 1] ∅ RNone eq_refl) as [Hcall _].
  exact Hcall.
Defined.

(** A [func] that changes the batch: handed the batch's own bound method
    [load], [apply_transform_all] does not raise, and [images] reads an
    array afterwards where it read [None] before. *)
Lemma apply_transform_all_lets_func_write :
  ∃ b', apply_transform_all VNone (VStr "images") bound_load
          [VTuple [VArray (NDArray [3] [10; 20; 30]%Z)]] ∅ fresh3 = (Val RNone, b')
        ∧ images fresh3 = (Val VNone, fresh3)
        ∧ images b' = (Val (VArray (NDArray [3] [10; 20; 30]%Z)), b')
        ∧ (images b').1 ≠ (images fresh3).1.
Proof.
  eexists. split; [reflexivity|]. split; [reflexivity|]. split; [reflexivity|].
  discriminate.
Qed.

(** C8: [dump] hands back the batch, but [apply_transform_all] never
    does: whenever it returns, it returns [None]. *)
Theorem apply_transform_all_returns_None (b : ImagesBatch) (src dst : value)
    (func : callable) (args : list value) (kwargs : gmap string value) :
  (apply_transform_all src dst func args kwargs b).1 ≠ Val RSelf
  ∧ apply_transform_all VNone (VStr "images") (constantly (VInt 5)) [] ∅ fresh3
    = (Val RNone, fresh3)
  ∧ dump VNone VNone b = (Val RSelf, b).
Proof.
  split; [|done].
  rewrite apply_transform_all_run.
  repeat match goal with
         | |- context [match ?x with _ => _ end] => destruct x; simpl; try done
         end.
Qed.

(** ** [apply_transform] *)

Lemma dispatch_failing {X A} (fn : X → M A) (inputs : list X) b e :
  (∀ x, fn x b = (Exc e, b)) →
  dispatch fn inputs b = (Val (replicate (length inputs) (Exc e)), b).
Proof.
  intros Hfn. induction inputs as [|x rest IH]; [done|].
  simpl. by rewrite Hfn, IH.
Qed.

(** C3: with a source attribute set, [apply_transform] reads the local
    [pos] before the line that assigns it.  Each item therefore ends in
    an exception ([UnboundLocalError] as soon as the source attribute
    itself can be read), [func] is never called and nothing is written:
    the batch is as before, for one item and for the whole fan-out. *)
Theorem apply_transform_unbound_pos (b : ImagesBatch) (src dst : value)
    (func : callable) (args : list value) (kwargs : gmap string value)
    (H : src ≠ VNone) :
  ∃ e,
    (∀ ix, apply_transform ix src dst func args kwargs b = (Exc e, b))
    ∧ (∀ x, (py_getattr src b).1 = Val x →
         e = Exception UnboundLocalError
               [VStr "local variable 'pos' referenced before assignment"])
    ∧ apply_transform_each src dst func args kwargs b
      = (Val (replicate (length (index b)) (Exc e)), b).
Proof.
  assert (Hn : is_None src = false) by by destruct src.
  pose proof (reads_only_run (py_getattr src) b (reads_only_getattr src)) as Hg.
  destruct (py_getattr src b).1 as [x|e] eqn:E.
  - exists (Exception UnboundLocalError
              [VStr "local variable 'pos' referenced before assignment"]).
    assert (Hall : ∀ ix, apply_transform ix src dst func args kwargs b
                     = (raise UnboundLocalError
                          "local variable 'pos' referenced before assignment", b)).
    { intros ix. unfold apply_transform. rewrite Hn.
      unfold mbind at 1, M_bind. unfold mbind at 1, M_bind. by rewrite Hg. }
    split; [done|]. split; [done|].
    unfold apply_transform_each, action, indices, self, mbind at 1, M_bind at 1.
    simpl. by apply dispatch_failing.
  - exists e.
    assert (Hall : ∀ ix, apply_transform ix src dst func args kwargs b = (Exc e, b)).
    { intros ix. unfold apply_transform. rewrite Hn.
      unfold mbind at 1, M_bind. unfold mbind at 1, M_bind. by rewrite Hg. }
    split; [done|]. split; [done|].
    unfold apply_transform_each, action, indices, self, mbind at 1, M_bind at 1.
    simpl. by apply dispatch_failing.
Qed.

Lemma apply_transform_unbound_pos_witness :
  VStr "images" ≠ VNone
  ∧ apply_transform 1 (VStr "images") (VStr "_new_attr") fromarray [] ∅ fresh3
    = (raise UnboundLocalError "local variable 'pos' referenced before assignment",
       fresh3).
Proof.
  split; [discriminate|].
  destruct (apply_transform_unbound_pos fresh3 (VStr "images") (VStr "_new_attr")
              fromarray [] ∅) as (e & Hall & He & _); [discriminate|].
  rewrite Hall, (He VNone eq_refl). reflexivity.
Defined.

(** Without a source attribute the body does what the docstring says:
    the result of [func] is stored at the position of the identifier. *)
Example apply_transform_without_source :
  apply_transform 1 VNone (VStr "_new_attr") (constantly (VInt 5)) [] ∅
    (mkBatch [0; 1; 2]%Z VNone (VList [VNone; VNone; VNone]) ∅)
  = (Val RNone, mkBatch [0; 1; 2]%Z VNone (VList [VNone; VInt 5; VNone]) ∅).
Proof. reflexivity. Qed.

(** Even past the unbound local, [tuple(src_attr[pos], *args)] would not
    build the argument tuple: with extra arguments [tuple] refuses them,
    without any it iterates the item. *)
Example tuple_of_item_and_arguments :
  py_tuple [VArray (NDArray [2] [7; 8]%Z); VInt 1]
  = raise TypeError "tuple expected at most 1 argument"
  ∧ py_tuple [VArray (NDArray [2] [7; 8]%Z)] = Val [VInt 7; VInt 8].
Proof. split; reflexivity. Qed.

(** ** [assemble] when an item failed *)

Lemma any_action_failed_true {A} (all_res : list (outcome A)) :
  any_action_failed all_res = true ↔ ∃ p e, all_res !! p = Some (Exc e).
Proof.
  unfold any_action_failed. induction all_res as [|r rest IH]; simpl.
  - split; [done|]. by intros (p & e & ?).
  - destruct r as [a|e]; simpl.
    + rewrite IH. split.
      * intros (p & e & Hp). by exists (S p), e.
      * intros ([|p] & e & Hp); [done|]. by exists p, e.
    + split; [|done]. intros _. by exists 0, e.
Qed.

Lemma failures_from_spec {A} (all_res : list (outcome A)) k p e :
  (p, e) ∈ failures_from k all_res ↔ ∃ i, p = k + i ∧ all_res !! i = Some (Exc e).
Proof.
  revert k. induction all_res as [|r rest IH]; intros k; simpl.
  - split; [by intros ?%elem_of_nil | by intros (i & _ & ?)].
  - assert (Hrest : (p, e) ∈ failures_from (S k) rest
                   ↔ ∃ i, p = k + S i ∧ rest !! i = Some (Exc e)).
    { rewrite IH. split; intros (i & -> & Hi); exists i; split; (lia || done). }
    destruct r as [a|e'].
    + rewrite Hrest. split.
      * intros (i & -> & Hi). by exists (S i).
      * intros ([|i] & -> & Hi); [done|]. by exists i.
    + rewrite elem_of_cons, Hrest. split.
      * intros [[= -> ->]|(i & -> & Hi)]; [exists 0 | exists (S i)]; split; (lia || done).
      * intros ([|i] & -> & Hi); simpl in Hi.
        -- left. injection Hi as ->. f_equal. lia.
        -- right. by exists i.
Qed.

Lemma failures_errors {A} (all_res : list (outcome A)) k :
  (failures_from k all_res).*2 = errors_of all_res.
Proof.
  revert k. unfold errors_of. induction all_res as [|[a|e] rest IH]; intros k; simpl.
  - done.
  - apply IH.
  - f_equal. apply IH.
Qed.

(** C1: when at least one item failed, [assemble] raises the aggregate
    [ValueError] carrying an entry for every failed item: its positions
    are exactly the failed positions, its errors are all the captured
    exceptions in order.  Nothing has been written: the batch, and so the
    target attribute, is as before the call. *)
Theorem assemble_failed_items (b : ImagesBatch) (all_res : list (outcome payload))
    (args : list value) (kwargs : gmap string value)
    (H : ∃ p e, all_res !! p = Some (Exc e)) :
  assemble all_res args kwargs b
    = (Exc (Exception ValueError
              [VStr "Could not assemble the batch";
               VList (failure_value <$> failures all_res)]), b)
  ∧ (∀ p e, (p, e) ∈ failures all_res ↔ all_res !! p = Some (Exc e))
  ∧ (failures all_res).*2 = errors_of all_res
  ∧ ∀ attr, py_getattr attr (assemble all_res args kwargs b).2 = py_getattr attr b.
Proof.
  apply any_action_failed_true in H.
  assert (Hrun : assemble all_res args kwargs b
    = (Exc (Exception ValueError
              [VStr "Could not assemble the batch";
               VList (failure_value <$> failures all_res)]), b)).
  { unfold assemble. by rewrite H. }
  split; [done|]. split; [|split].
  - intros p e. unfold failures. rewrite failures_from_spec. split.
    + by intros (i & -> & Hi).
    + intros Hp. by exists p.
  - apply failures_errors.
  - intros attr. by rewrite Hrun.
Qed.

Lemma assemble_failed_items_witness :
  assemble
    [Val (PInt 1); Exc (Exception TypeError [VStr "a"]); Val (PInt 3);
     Exc (Exception IndexError [VStr "b"])] [] ∅ fresh3
  = (Exc (Exception ValueError
            [VStr "Could not assemble the batch";
             VList [VTuple [VInt 1; VExc TypeError [VStr "a"]];
                    VTuple [VInt 3; VExc IndexError [VStr "b"]]]]), fresh3).
Proof.
  apply (assemble_failed_items fresh3
           [Val (PInt 1); Exc (Exception TypeError [VStr "a"]); Val (PInt 3);
            Exc (Exception IndexError [VStr "b"])] [] ∅).
  exists 1, (Exception TypeError [VStr "a"]). reflexivity.
Defined.

(** ** Blocks of a flat element list *)

Lemma chunk_S p m l : chunk (S p) m l = chunk p m (drop m l).
Proof. unfold chunk. rewrite drop_drop. simpl. done. Qed.

Lemma chunk_app_first m l k : length l = m → chunk 0 m (l ++ k) = l.
Proof. intros <-. unfold chunk. simpl. apply take_app_length. Qed.

Lemma chunk_app_next p m l k : length l = m → chunk (S p) m (l ++ k) = chunk p m k.
Proof. intros <-. by rewrite chunk_S, drop_app_length. Qed.

Lemma chunk_one o l : o < length l → chunk o 1 l = [nth o l 0%Z].
Proof.
  unfold chunk. rewrite Nat.mul_1_r. revert o.
  induction l as [|x l IH]; intros [|o] Hlt; simpl in *; try lia.
  - by rewrite take_0.
  - apply IH. lia.
Qed.

Lemma flat_map_ext_elem {X Y} (f g : X → list Y) l :
  (∀ x, x ∈ l → f x = g x) → flat_map f l = flat_map g l.
Proof.
  induction l as [|x l IH]; intros H; simpl; [done|].
  rewrite H by left. f_equal. apply IH. intros y Hy. apply H. by right.
Qed.

Lemma flat_map_fmap {X Y W} (f : Y → list W) (g : X → Y) l :
  flat_map f (g <$> l) = flat_map (f ∘ g) l.
Proof. induction l as [|x l IH]; csimpl; [done|]. by rewrite IH. Qed.

Lemma flat_map_singleton {X Y} (g : X → Y) l :
  flat_map (λ x, [g x]) l = g <$> l.
Proof. induction l as [|x l IH]; csimpl; [done|]. by rewrite IH. Qed.

Lemma chunk_flat_map {X} (f : X → list Z) m xs k x :
  (∀ y, y ∈ xs → length (f y) = m) →
  xs !! k = Some x → chunk k m (flat_map f xs) = f x.
Proof.
  revert k. induction xs as [|y xs IH]; intros [|k] Hlen Hk; simpl in *; try done.
  - injection Hk as ->. rewrite chunk_app_first; [|apply Hlen; left].
    done.
  - rewrite chunk_app_next; [|apply Hlen; left].
    apply IH; [|done]. intros z Hz. apply Hlen. by right.
Qed.

Lemma flat_map_chunks n m l :
  length l = n * m → flat_map (λ p, chunk p m l) (seq 0 n) = l.
Proof.
  revert l. induction n as [|n IH]; intros l Hlen.
  - by destruct l.
  - change (seq 0 (S n)) with (0 :: seq 1 n).
    change (flat_map (λ p, chunk p m l) (0 :: seq 1 n))
      with (chunk 0 m l ++ flat_map (λ p, chunk p m l) (seq 1 n))%list.
    rewrite <- fmap_S_seq, flat_map_fmap.
    rewrite (flat_map_ext_elem _ (λ p, chunk p m (drop m l))).
    + rewrite IH; [|rewrite length_drop; lia].
      unfold chunk. simpl. apply take_drop.
    + intros p _. simpl. apply chunk_S.
Qed.

Lemma fmap_nth_seq (l : list Z) : (λ o, nth o l 0%Z) <$> seq 0 (length l) = l.
Proof.
  apply list_eq. intros i. rewrite list_lookup_fmap.
  destruct (decide (i < length l)) as [Hlt|Hge].
  - rewrite lookup_seq_lt by done. simpl.
    destruct (lookup_lt_is_Some_2 l i Hlt) as [x Hx].
    by rewrite Hx, (nth_lookup_Some _ _ _ _ Hx).
  - rewrite (lookup_ge_None_2 l) by lia.
    rewrite (lookup_ge_None_2 (seq 0 (length l))); [done|].
    rewrite length_seq. lia.
Qed.

Lemma flat_map_nth_seq {X Y} (f : X → list Y) (l : list X) (d : X) :
  flat_map (λ k, f (nth k l d)) (seq 0 (length l)) = flat_map f l.
Proof.
  induction l as [|x l IH]; [done|].
  simpl. f_equal. rewrite <- fmap_S_seq, flat_map_fmap. apply IH.
Qed.

(** Reading a list of [n]-element rows at a flat position. *)
Lemma nth_flat_map_rows {X} (f : X → list Z) (n : nat) (l : list X) o k x :
  (∀ y, y ∈ l → length (f y) = n) →
  l !! o = Some x → k < n →
  nth (o * n + k) (flat_map f l) 0%Z = nth k (f x) 0%Z.
Proof.
  revert o. induction l as [|y l IH]; intros [|o] Hlen Ho Hk; simpl in *; try done.
  - injection Ho as ->. apply app_nth1. rewrite Hlen; [done|left].
  - rewrite app_nth2; rewrite Hlen by left; [|lia].
    replace (n + o * n + k - n) with (o * n + k) by lia.
    apply IH; [|done..]. intros z Hz. apply Hlen. by right.
Qed.

(** A two-level walk over an [h] by [w] grid visits the flat positions
    in order. *)
Lemma flat_map_grid {Y} (g : nat → Y) h w :
  flat_map (λ i, (λ j, g (i * w + j)) <$> seq 0 w) (seq 0 h) = g <$> seq 0 (h * w).
Proof.
  induction h as [|h IH]; [done|].
  rewrite seq_S, flat_map_app, IH. simpl. rewrite app_nil_r.
  replace (w + h * w) with (h * w + w) by lia.
  rewrite seq_app, fmap_app. f_equal. simpl.
  replace (seq (h * w) w) with (Nat.add (h * w) <$> seq 0 w)
    by (rewrite fmap_add_seq; f_equal; lia).
  by rewrite <- list_fmap_compose.
Qed.

(** ** Stacking with [dstack] and [transpose] *)

Lemma sum_depth arrs c s0 s1 s' :
  (∀ a, a ∈ arrs → shape a = s0 :: s1 :: c :: s') →
  sum_list (depth <$> arrs) = length arrs * c.
Proof.
  induction arrs as [|a l IH]; intros Hshape; [done|].
  csimpl. unfold depth at 1. rewrite (Hshape a) by left.
  rewrite IH; [lia|]. intros a' Ha'. apply Hshape. by right.
Qed.

Lemma concatenate2_uniform arrs s0 s1 c s' :
  arrs ≠ [] →
  (∀ a, a ∈ arrs → shape a = s0 :: s1 :: c :: s') →
  concatenate2 arrs
  = Val (NDArray (s0 :: s1 :: length arrs * c :: s')
           (flat_map (λ o, flat_map (λ a, chunk o (c * size_of s') (elems a)) arrs)
              (seq 0 (s0 * s1)))).
Proof.
  intros Hne Hshape. destruct arrs as [|a0 rest]; [done|].
  unfold concatenate2. rewrite (Hshape a0) by left.
  assert (Hall : forallb (λ a, joinable (s0 :: s1 :: c :: s') (shape a)) (a0 :: rest) = true).
  { apply forallb_forall. intros a Ha%list_elem_of_In. rewrite (Hshape a Ha).
    simpl. by apply bool_decide_eq_true. }
  rewrite Hall. f_equal. f_equal.
  - do 3 f_equal. by eapply sum_depth.
  - apply flat_map_ext_elem. intros o _. apply flat_map_ext_elem. intros a Ha.
    unfold depth. by rewrite (Hshape a Ha).
Qed.


Section stack_2d.
(** Two-dimensional arrays of one shape [h] by [w]. *)
Variables (arrs : list ndarray) (h w : nat).
Hypothesis Hshape : ∀ a, a ∈ arrs → shape a = [h; w].
Hypothesis Hvalid : ∀ a, a ∈ arrs → valid a.

Lemma length_elems_2d a : a ∈ arrs → length (elems a) = h * w.
Proof.
  intros Ha. pose proof (Hvalid a Ha) as Hv. unfold valid in Hv.
  rewrite Hv, (Hshape a Ha). simpl. lia.
Qed.

Lemma dstack_2d :
  arrs ≠ [] → dstack arrs = Val (NDArray [h; w; length arrs] (joined arrs (h * w))).
Proof.
  intros Hne. unfold dstack, joined.
  rewrite (concatenate2_uniform _ h w 1 []).
  - rewrite length_fmap, Nat.mul_1_r. f_equal. f_equal.
    apply flat_map_ext_elem. intros o _. rewrite flat_map_fmap.
    apply flat_map_ext_elem. intros a Ha. simpl.
    unfold atleast_3d. by rewrite (Hshape a Ha).
  - by destruct arrs.
  - intros a' (a & -> & Ha)%list_elem_of_fmap.
    unfold atleast_3d. by rewrite (Hshape a Ha).
Qed.

(** The element of the joined array at depth [k] over the flat grid
    position [o] is element [o] of the [k]-th array. *)
Lemma dstack_2d_nth o k a :
  o < h * w → arrs !! k = Some a →
  nth (o * length arrs + k) (joined arrs (h * w)) 0%Z = nth o (elems a) 0%Z.
Proof.
  intros Ho Hk. unfold joined.
  rewrite (flat_map_ext_elem _ (λ o, (λ a, nth o (elems a) 0%Z) <$> arrs)).
  - rewrite (nth_flat_map_rows _ (length arrs) _ o k o).
    + apply nth_lookup_Some. by rewrite list_lookup_fmap, Hk.
    + intros y _. by rewrite length_fmap.
    + by apply lookup_seq_lt.
    + by eapply lookup_lt_Some.
  - intros i [_ Hi]%elem_of_seq. rewrite <- flat_map_singleton.
    apply flat_map_ext_elem. intros a' Ha'. apply chunk_one.
    rewrite (length_elems_2d a' Ha'). lia.
Qed.

Lemma transpose201_dstack_2d :
  transpose201 (NDArray [h; w; length arrs] (joined arrs (h * w)))
  = Val (NDArray [length arrs; h; w] (flat_map elems arrs)).
Proof.
  unfold transpose201. simpl. f_equal. f_equal.
  rewrite <- (flat_map_nth_seq elems arrs (NDArray [] [])).
  apply flat_map_ext_elem. intros k [_ Hk]%elem_of_seq. simpl in Hk.
  destruct (lookup_lt_is_Some_2 arrs k Hk) as [a Ha].
  rewrite (nth_lookup_Some _ _ _ _ Ha).
  rewrite (flat_map_grid (λ o, nth (o * length arrs + k) _ 0%Z)).
  etrans; [|apply (fmap_nth_seq (elems a))].
  rewrite (length_elems_2d a) by by eapply list_elem_of_lookup_2.
  apply list_fmap_ext. intros i o [-> Ho]%lookup_seq. simpl.
  by apply dstack_2d_nth.
Qed.

(** Stacking lists the arrays one after the other along a new leading
    axis. *)
Lemma stack_2d :
  arrs ≠ [] →
  dstack arrs ≫= transpose201
  = Val (NDArray [length arrs; h; w] (flat_map elems arrs)).
Proof. intros Hne. rewrite dstack_2d by done. apply transpose201_dstack_2d. Qed.

Lemma stacked_row p a :
  arrs !! p = Some a →
  py_getitem (VArray (NDArray [length arrs; h; w] (flat_map elems arrs))) p
  = Val (VArray a).
Proof.
  intros Hp. unfold py_getitem. simpl.
  rewrite decide_True by by eapply lookup_lt_Some.
  unfold row. simpl. f_equal. f_equal.
  assert (Ha : a ∈ arrs) by by eapply list_elem_of_lookup_2.
  rewrite (chunk_flat_map elems _ arrs p a).
  - pose proof (Hshape a Ha). destruct a. simpl in *. by subst.
  - intros y Hy. rewrite (length_elems_2d y Hy). simpl. lia.
  - done.
Qed.
End stack_2d.


(** ** [assemble] when every item succeeded *)

Lemma any_action_failed_false {A} (rs : list (outcome A)) :
  Forall (λ r, is_failure r = false) rs → any_action_failed rs = false.
Proof.
  unfold any_action_failed. induction 1 as [|r rs Hr _ IH]; [done|].
  simpl. by rewrite Hr, IH.
Qed.


Lemma np_dstack_payloads (ps : list payload) :
  np_dstack (Val <$> ps) = dstack (payload_array <$> ps).
Proof.
  unfold np_dstack.
  assert (H : mapM result_array (Val <$> ps) = Val (payload_array <$> ps)).
  { induction ps as [|p ps IH]; [done|].
    change (mapM result_array (Val <$> p :: ps))
      with (result_array (Val p) ≫= λ y,
            mapM result_array (Val <$> ps) ≫= λ k, mret (y :: k)).
    by rewrite IH. }
  by rewrite H.
Qed.

Lemma result_value_payloads (ps : list payload) :
  result_value <$> (Val <$> ps) = payload_value <$> ps.
Proof. by rewrite <- list_fmap_compose. Qed.

Lemma payload_array_PArray (arrs : list ndarray) :
  payload_array <$> (PArray <$> arrs) = arrs.
Proof. induction arrs as [|a l IH]; csimpl; [done|]. by rewrite IH. Qed.

(** What [assemble] does with results that are all successes: one
    [setattr], of the list itself or of the stacked array. *)
Lemma assemble_successes b p0 ps args kwargs :
  assemble (Val <$> p0 :: ps) args kwargs b
  = match p0 with
    | PImage _ =>
        (py_setattr (target_attr kwargs) (VList (payload_value <$> p0 :: ps));;
         mret RSelf) b
    | _ =>
        match dstack (payload_array <$> p0 :: ps) ≫= transpose201 with
        | Val arr => (py_setattr (target_attr kwargs) (VArray arr);; mret RSelf) b
        | Exc e => (Exc e, b)
        end
    end.
Proof.
  unfold assemble.
  rewrite any_action_failed_false
    by (apply Forall_fmap, Forall_forall; by intros).
  rewrite np_dstack_payloads, result_value_payloads.
  destruct p0; try done.
  all: unfold mbind at 1, M_bind at 1, lift at 1; simpl py_getitem; cbv iota beta;
    simpl isinstance_Image; cbv iota;
    unfold mbind at 1, M_bind at 1; unfold mbind at 1, M_bind at 1, lift at 1;
    destruct (dstack _) as [d|e]; [|done];
    simpl; unfold mbind at 1, M_bind at 1, lift at 1;
    by destruct (transpose201 d).
Qed.










(** ** Indexing by the identifiers in [load] *)

Lemma norm_index_lt (n : nat) (z : Z) (p : nat) : norm_index n z = Some p → p < n.
Proof.
  unfold norm_index. repeat case_decide; intros [= <-]; lia.
Qed.

Lemma mapM_norm_index_seq (n k m : nat) :
  k + m ≤ n → mapM (norm_index n) (Z.of_nat <$> seq k m) = Some (seq k m).
Proof.
  intros Hle. apply mapM_Some. apply Forall2_fmap_l, Forall_Forall2_diag.
  apply Forall_forall. intros i [? ?]%elem_of_seq.
  simpl. unfold norm_index. rewrite decide_True by lia. by rewrite Nat2Z.id.
Qed.

(** With the identifiers 0 .. n-1 an array of n rows is taken whole. *)
Lemma take_rows_identity a n s :
  shape a = n :: s → valid a →
  take_rows a (Z.of_nat <$> seq 0 n) = Val a.
Proof.
  intros Hs Hv. unfold take_rows. rewrite Hs, mapM_norm_index_seq by lia.
  rewrite length_fmap, length_seq, flat_map_chunks.
  - destruct a. simpl in *. by subst.
  - unfold valid in Hv. by rewrite Hv, Hs.
Qed.

(** Row [k] of the result is the row of the source named by the [k]-th
    identifier. *)
Lemma take_rows_keyed a n s ids r k z :
  shape a = n :: s → valid a →
  take_rows a ids = Val r → ids !! k = Some z →
  shape r = length ids :: s
  ∧ ∃ p, norm_index n z = Some p ∧ p < n ∧ row r k = row a p.
Proof.
  intros Hs Hv Hr Hk. unfold take_rows in Hr. rewrite Hs in Hr.
  destruct (mapM (norm_index n) ids) as [ps|] eqn:Hps; [|done].
  injection Hr as <-. split; [done|].
  apply mapM_Some in Hps.
  destruct (Forall2_lookup_l _ _ _ _ _ Hps Hk) as (p & Hp & Hz).
  exists p. split; [done|]. pose proof (norm_index_lt _ _ _ Hz) as Hlt.
  split; [done|].
  assert (Hchunk : ∀ q, q < n → length (chunk q (size_of s) (elems a)) = size_of s).
  { intros q Hq. unfold chunk. rewrite length_take, length_drop.
    unfold valid in Hv. rewrite Hv, Hs. simpl. nia. }
  assert (Hrow : chunk k (size_of s) (flat_map (λ p, chunk p (size_of s) (elems a)) ps)
                 = chunk p (size_of s) (elems a)).
  { apply (chunk_flat_map (λ p, chunk p (size_of s) (elems a)) _ ps k p); [|done].
    intros q Hq. apply Hchunk.
    apply list_elem_of_lookup in Hq as [j Hj].
    destruct (Forall2_lookup_r _ _ _ _ _ Hps Hj) as (z' & _ & Hz').
    by eapply norm_index_lt. }
  unfold row. rewrite Hs. simpl shape. destruct s as [|m s'].
  - f_equal. simpl in Hrow, Hchunk.
    assert (Hk' : k < length ps).
    { apply Forall2_length in Hps. rewrite <- Hps. by eapply lookup_lt_Some. }
    assert (Hlenr : length (flat_map (λ p0, chunk p0 1 (elems a)) ps) = length ps).
    { clear -Hps Hchunk. 
      assert (Hall : ∀ q, q ∈ ps → q < n).
      { intros q [j Hj]%list_elem_of_lookup.
        destruct (Forall2_lookup_r _ _ _ _ _ Hps Hj) as (z' & _ & Hz').
        by eapply norm_index_lt. }
      clear Hps. induction ps as [|q ps IH]; [done|].
      simpl. rewrite length_app, Hchunk, IH; [done| |].
      - intros q' Hq'. apply Hall. by right.
      - apply Hall. by left. }
    rewrite chunk_one in Hrow by lia.
    rewrite chunk_one in Hrow.
    + by injection Hrow.
    + unfold valid in Hv. rewrite Hv, Hs. simpl. lia.
  - cbn -[size_of chunk flat_map]. by rewrite Hrow.
Qed.

Lemma load_slot_run b items i :
  (if decide (i < length items) then
     c ← lift (py_getitem (VTuple items) i);
     ids ← indices;
     lift (py_getitem_array c ids)
   else mret VNone) b
  = (loaded_slot (index b) (items !! i), b).
Proof.
  case_decide as Hi.
  - destruct (lookup_lt_is_Some_2 items i Hi) as [c Hc]. rewrite Hc.
    unfold lift at 1, mbind at 1, M_bind at 1. simpl. by rewrite Hc.
  - by rewrite lookup_ge_None_2 by lia.
Qed.

(** Mapping a computation that reads the batch and leaves it alone. *)
Lemma mapM_reading {X A} (f : X → M A) (g : X → outcome A) (l : list X) b :
  (∀ x, f x b = (g x, b)) → mapM f l b = (mapM g l, b).
Proof.
  intros Hf. induction l as [|x l IH]; [done|].
  change (mapM f (x :: l)) with (f x ≫= λ y, mapM f l ≫= λ k, mret (y :: k)).
  change (mapM g (x :: l)) with (g x ≫= λ y, mapM g l ≫= λ k, mret (y :: k)).
  unfold mbind at 1, M_bind at 1. rewrite Hf.
  destruct (g x) as [y|e]; [|done]. simpl.
  unfold mbind at 1, M_bind at 1. rewrite IH.
  by destruct (mapM g l).
Qed.

Lemma load_tuple_run b items x0 x1 x2 :
  loaded_slot (index b) (items !! 0) = Val x0 →
  loaded_slot (index b) (items !! 1) = Val x1 →
  loaded_slot (index b) (items !! 2) = Val x2 →
  load (VTuple items) VNone b = (Val RSelf, with_data b (VTuple [x0; x1; x2])).
Proof.
  intros H0 H1 H2. unfold load, action. change (is_None VNone) with true. cbv iota.
  unfold mbind at 1, M_bind at 1. unfold mbind at 1, M_bind at 1.
  rewrite (mapM_reading _ (λ i, loaded_slot (index b) (items !! i)))
    by (intros i; apply load_slot_run).
  change (seq 0 3) with [0; 1; 2].
  cbv beta iota fix delta [mapM].
  by rewrite H0, H1, H2.
Qed.

Lemma loaded_slot_array b arrs i :
  i < 3 →
  Forall (λ a, is_failure (take_rows a (index b)) = false) (take 3 arrs) →
  loaded_slot (index b) ((VArray <$> arrs) !! i) = Val (slot_value (index b) arrs i).
Proof.
  intros Hi H. unfold loaded_slot, slot_value. rewrite list_lookup_fmap.
  destruct (arrs !! i) as [a|] eqn:Ha; [|done]. simpl.
  rewrite Forall_forall in H. specialize (H a).
  destruct (take_rows a (index b)); [done|].
  exfalso. assert (true = false); [|done]. apply H.
  apply list_elem_of_lookup. exists i. by rewrite lookup_take_lt.
Qed.

(** C6 (as amended): without a format, [load] of a tuple of arrays
    puts into slot i, for each of the first three containers, container
    i indexed by the identifiers of the batch: row k of the slot is the
    row of the container named by the k-th identifier.  Slots without a
    container are [None].  The slot is the container itself when the
    identifiers are 0 .. n-1 and the container has n rows; so it is for
    the array [10, 20, 30] on the identifiers [0, 1, 2]. *)
Theorem load_tuple_by_identifiers (b : ImagesBatch) (arrs : list ndarray)
    (H : Forall (λ a, is_failure (take_rows a (index b)) = false) (take 3 arrs)) :
  load (VTuple (VArray <$> arrs)) VNone b = (Val RSelf, loaded b arrs)
  ∧ images (loaded b arrs) = (Val (slot_value (index b) arrs 0), loaded b arrs)
  ∧ labels (loaded b arrs) = (Val (slot_value (index b) arrs 1), loaded b arrs)
  ∧ masks (loaded b arrs) = (Val (slot_value (index b) arrs 2), loaded b arrs)
  ∧ (∀ i, arrs !! i = None → slot_value (index b) arrs i = VNone)
  ∧ (∀ i a n s, i < 3 → arrs !! i = Some a → shape a = n :: s → valid a →
       (∃ r, slot_value (index b) arrs i = VArray r
             ∧ shape r = length (index b) :: s
             ∧ ∀ k z, index b !! k = Some z →
                 ∃ p, norm_index n z = Some p ∧ row r k = row a p)
       ∧ (index b = Z.of_nat <$> seq 0 n → slot_value (index b) arrs i = VArray a))
  ∧ load (VTuple [VArray (NDArray [3] [10; 20; 30]%Z)]) VNone fresh3
    = (Val RSelf,
       with_data fresh3 (VTuple [VArray (NDArray [3] [10; 20; 30]%Z); VNone; VNone])).
Proof.
  split; [|split; [|split; [|split; [|split; [|split]]]]].
  - unfold loaded. apply load_tuple_run; apply loaded_slot_array; (lia || done).
  - by eapply read_slot_slots.
  - by eapply read_slot_slots.
  - by eapply read_slot_slots.
  - intros i Hi. unfold slot_value. by rewrite Hi.
  - intros i a n s Hi Ha Hs Hv.
    assert (Hok : is_failure (take_rows a (index b)) = false).
    { rewrite Forall_forall in H. apply H.
      apply list_elem_of_lookup. exists i. by rewrite lookup_take_lt. }
    unfold slot_value. rewrite Ha.
    destruct (take_rows a (index b)) as [r|e] eqn:Hr; [|done]. split.
    + exists r. split; [done|].
      destruct (index b) as [|z0 ids] eqn:Hids.
      * split; [|intros k z Hk; by rewrite lookup_nil in Hk].
        unfold take_rows in Hr. rewrite Hs in Hr. by injection Hr as <-.
      * destruct (take_rows_keyed a n s (z0 :: ids) r 0 z0 Hs Hv Hr eq_refl)
          as [Hshape _].
        split; [done|]. intros k z Hk.
        destruct (take_rows_keyed a n s (z0 :: ids) r k z Hs Hv Hr Hk)
          as (_ & p & Hp & _ & Hrow).
        by exists p.
    + intros Hidx. rewrite Hidx, (take_rows_identity a n s Hs Hv) in Hr.
      by injection Hr as <-.
  - reflexivity.
Qed.

Lemma load_tuple_by_identifiers_witness :
  load (VTuple (VArray <$> [NDArray [3] [10; 20; 30]%Z; NDArray [4] [1; 2; 3; 4]%Z]))
    VNone shuffled3
  = (Val RSelf, loaded shuffled3 [NDArray [3] [10; 20; 30]%Z; NDArray [4] [1; 2; 3; 4]%Z]).
Proof.
  apply (load_tuple_by_identifiers shuffled3
           [NDArray [3] [10; 20; 30]%Z; NDArray [4] [1; 2; 3; 4]%Z]).
  repeat constructor.
Defined.

(** C6 as stated fails: on a batch of length 3 whose identifiers are
    2, 0, 1 the attribute 0 after [load(([10, 20, 30],))] is
    [30, 10, 20]. *)
Lemma load_follows_identifiers_not_positions :
  load (VTuple [VArray (NDArray [3] [10; 20; 30]%Z)]) VNone shuffled3
  = (Val RSelf,
     with_data shuffled3 (VTuple [VArray (NDArray [3] [30; 10; 20]%Z); VNone; VNone]))
  ∧ images (with_data shuffled3
              (VTuple [VArray (NDArray [3] [30; 10; 20]%Z); VNone; VNone]))
    = (Val (VArray (NDArray [3] [30; 10; 20]%Z)),
       with_data shuffled3 (VTuple [VArray (NDArray [3] [30; 10; 20]%Z); VNone; VNone]))
  ∧ length (index shuffled3) = 3
  ∧ VArray (NDArray [3] [30; 10; 20]%Z) ≠ VArray (NDArray [3] [10; 20; 30]%Z).
Proof. repeat split; (reflexivity || discriminate). Qed.

(** A Python list cannot be indexed by the identifiers at all. *)
Example load_python_list_refused :
  load (VTuple [VList [VInt 10; VInt 20; VInt 30]]) VNone fresh3
  = (raise TypeError "indices must be integers or slices", fresh3).
Proof. reflexivity. Qed.

(** * Further properties of the class *)

(** ** Failing without a trace *)

Lemma all_or_nothing_reads {A} (m : M A) : reads_only m → all_or_nothing m.
Proof. intros H b e b' Hm. specialize (H b). by rewrite Hm in H. Qed.

Lemma all_or_nothing_bind_reads {A B} (m : M A) (f : A → M B) :
  reads_only m → (∀ a, all_or_nothing (f a)) → all_or_nothing (m ≫= f).
Proof.
  intros Hm Hf b e b'. unfold mbind, M_bind.
  rewrite (reads_only_run m b Hm). destruct (m b).1 as [a|e0].
  - apply Hf.
  - by intros [= _ <-].
Qed.

Lemma all_or_nothing_bind_total {A B} (m : M A) (f : A → M B) :
  all_or_nothing m → (∀ a, never_raises (f a)) → all_or_nothing (m ≫= f).
Proof.
  intros Hm Hf b e b'. unfold mbind, M_bind.
  destruct (m b) as [[a|e0] b1] eqn:E.
  - destruct (Hf a b1) as (r & b2 & Hr). by rewrite Hr.
  - intros [= _ <-]. by eapply Hm.
Qed.

Lemma all_or_nothing_total {A} (m : M A) : never_raises m → all_or_nothing m.
Proof. intros H b e b' Hm. destruct (H b) as (a & b1 & Ha). congruence. Qed.

Lemma never_raises_ret {A} (a : A) : never_raises (mret a).
Proof. intros b. by exists a, b. Qed.

Lemma never_raises_set__data v : never_raises (set__data v).
Proof. intros b. by eexists _, _. Qed.

Lemma never_raises_set__new_attr v : never_raises (set__new_attr v).
Proof. intros b. by eexists _, _. Qed.

Lemma never_raises_set_index ids : never_raises (set_index ids).
Proof. intros b. by eexists _, _. Qed.

Lemma never_raises_set_extra name v : never_raises (set_extra name v).
Proof. intros b. by eexists _, _. Qed.

Lemma never_raises_bind_reads {A B} (m : M A) (f : A → M B) :
  never_raises m → (∀ a, never_raises (f a)) → never_raises (m ≫= f).
Proof.
  intros Hm Hf b. unfold mbind, M_bind.
  destruct (Hm b) as (a & b1 & Ha). rewrite Ha. apply Hf.
Qed.

Lemma all_or_nothing_write_slot k v : all_or_nothing (write_slot k v).
Proof.
  unfold write_slot.
  apply all_or_nothing_bind_reads; [reads|]. intros d.
  apply all_or_nothing_bind_reads; [reads|]. intros l.
  apply all_or_nothing_bind_reads; [reads|]. intros l'.
  apply all_or_nothing_total, never_raises_set__data.
Qed.

Lemma all_or_nothing_setattr name v : all_or_nothing (py_setattr name v).
Proof.
  unfold py_setattr, images_setter, labels_setter, masks_setter.
  destruct name as [| |s| | | | | |];
    try (apply all_or_nothing_reads; apply reads_only_lift).
  repeat case_decide;
    first [ apply all_or_nothing_write_slot
          | apply all_or_nothing_reads; apply reads_only_lift
          | apply all_or_nothing_total;
            first [ apply never_raises_set__data | apply never_raises_set__new_attr
                  | apply never_raises_set_extra ] ].
Qed.

(** ** The getters and the setters *)

Lemma read_slot_spec b l k :
  slots b = Some l →
  read_slot k b
  = (match l !! k with
     | Some x => Val x
     | None => raise IndexError "index out of range"
     end, b).
Proof.
  intros Hs. destruct (data_slots b l Hs) as (d & Hd & _ & Hn & Hg).
  unfold read_slot. rewrite (bind_val _ _ _ _ _ Hd), Hn.
  rewrite (bind_val _ _ _ _ _ Hd). unfold lift. by rewrite Hg.
Qed.

Lemma data_not_None b : ∃ d, data b = (Val d, b) ∧ is_None d = false.
Proof.
  unfold data, Batch_data, self, mbind, M_bind, mret, M_ret.
  destruct (_data b) eqn:E; simpl; eauto.
Qed.

(** X1: the property [data] never gives [None], so the guard of the
    three getters is never taken: each getter is [self.data[k]], with
    whatever that subscript raises. *)
Theorem getters_subscript_data (b : ImagesBatch) :
  ∃ d, data b = (Val d, b) ∧ d ≠ VNone
     ∧ images b = (py_getitem d 0, b)
     ∧ labels b = (py_getitem d 1, b)
     ∧ masks b = (py_getitem d 2, b).
Proof.
  destruct (data_not_None b) as (d & Hd & Hn). exists d.
  split; [done|]. split; [by destruct d|].
  unfold images, labels, masks, read_slot.
  repeat split; rewrite (bind_val _ _ _ _ _ Hd), Hn;
    by rewrite (bind_val _ _ _ _ _ Hd).
Qed.

(** X2: on a container of at least two slots, assigning [images] or
    [labels] is read back by the getter of the same name and leaves what
    every other getter gives as it was. *)
Theorem setters_round_trip (b : ImagesBatch) (l : list value) (v : value)
    (Hs : slots b = Some l) (Hl : 1 < length l) :
  (images_setter v b = (Val tt, with_data b (VList (<[0:=v]> l)))
   ∧ images (with_data b (VList (<[0:=v]> l)))
     = (Val v, with_data b (VList (<[0:=v]> l)))
   ∧ ∀ k, k ≠ 0 → (read_slot k (with_data b (VList (<[0:=v]> l)))).1 = (read_slot k b).1)
  ∧ (labels_setter v b = (Val tt, with_data b (VList (<[1:=v]> l)))
     ∧ labels (with_data b (VList (<[1:=v]> l)))
       = (Val v, with_data b (VList (<[1:=v]> l)))
     ∧ ∀ k, k ≠ 1 → (read_slot k (with_data b (VList (<[1:=v]> l)))).1 = (read_slot k b).1).
Proof.
  assert (Hgen : ∀ i, i < length l →
    write_slot i v b = (Val tt, with_data b (VList (<[i:=v]> l)))
    ∧ read_slot i (with_data b (VList (<[i:=v]> l)))
      = (Val v, with_data b (VList (<[i:=v]> l)))
    ∧ ∀ k, k ≠ i → (read_slot k (with_data b (VList (<[i:=v]> l)))).1 = (read_slot k b).1).
  { intros i Hi. split; [|split].
    - by rewrite (write_slot_slots _ _ _ _ Hs), decide_True.
    - rewrite (read_slot_spec _ (<[i:=v]> l)) by done.
      by rewrite list_lookup_insert_eq.
    - intros k Hk. rewrite (read_slot_spec _ (<[i:=v]> l)) by done.
      rewrite (read_slot_spec _ l) by done. simpl.
      by rewrite list_lookup_insert_ne. }
  split; apply Hgen; lia.
Qed.

Lemma setters_round_trip_witness :
  images_setter (VInt 7) fresh3 = (Val tt, with_data fresh3 (VList [VInt 7; VNone; VNone]))
  ∧ labels_setter (VInt 7) fresh3 = (Val tt, with_data fresh3 (VList [VNone; VInt 7; VNone])).
Proof.
  destruct (setters_round_trip fresh3 [VNone; VNone; VNone] (VInt 7))
    as [(H1 & _) (H2 & _)]; [reflexivity | simpl; lia |].
  split; [exact H1 | exact H2].
Defined.

Lemma run_two_writes b l i j v w :
  slots b = Some l → i < length l → j < length l →
  (write_slot i v;; write_slot j w) b
  = (Val tt, with_data b (VList (<[j:=w]> (<[i:=v]> l)))).
Proof.
  intros Hs Hi Hj.
  rewrite (bind_val _ _ b tt (with_data b (VList (<[i:=v]> l)))).
  - rewrite (write_slot_slots _ (<[i:=v]> l)) by done.
    by rewrite decide_True by by rewrite length_insert.
  - by rewrite (write_slot_slots _ _ _ _ Hs), decide_True.
Qed.

(** X3: on a container of at least two slots the assignments of
    [images] and [labels] commute, and of two assignments of the same
    attribute the last one wins. *)
Theorem setters_commute (b : ImagesBatch) (l : list value) (v w : value)
    (Hs : slots b = Some l) (Hl : 1 < length l) :
  (images_setter v;; labels_setter w) b = (labels_setter w;; images_setter v) b
  ∧ (images_setter v;; images_setter w) b = images_setter w b
  ∧ (labels_setter v;; labels_setter w) b = labels_setter w b.
Proof.
  unfold images_setter, labels_setter.
  rewrite !(run_two_writes b l) by (done || lia).
  rewrite !(write_slot_slots _ _ _ _ Hs), !decide_True by lia.
  split; [|split].
  - by rewrite list_insert_insert_ne.
  - by rewrite list_insert_insert_eq.
  - by rewrite list_insert_insert_eq.
Qed.

Lemma setters_commute_witness :
  (images_setter (VInt 1);; labels_setter (VInt 2)) fresh3
  = (labels_setter (VInt 2);; images_setter (VInt 1)) fresh3.
Proof.
  apply (setters_commute fresh3 [VNone; VNone; VNone] (VInt 1) (VInt 2));
    [reflexivity | simpl; lia].
Defined.

(** ** More on [assemble] *)

Lemma all_or_nothing_assemble all_res args kwargs :
  all_or_nothing (assemble all_res args kwargs).
Proof.
  unfold assemble. destruct (any_action_failed all_res).
  - intros b e b'. unfold get_errors, throw, lift, mbind, M_bind, mret, M_ret.
    by intros [= _ <-].
  - apply all_or_nothing_bind_reads; [reads|]. intros first.
    apply all_or_nothing_bind_total; [|intros; apply never_raises_ret].
    destruct (isinstance_Image first); [apply all_or_nothing_setattr|].
    apply all_or_nothing_bind_reads; [reads|]. intros stacked.
    apply all_or_nothing_bind_reads; [reads|]. intros arr.
    apply all_or_nothing_setattr.
Qed.

(** X4: whenever [assemble] raises, for whatever reason, the batch is
    exactly as it was before the call. *)
Theorem assemble_raises_unchanged (b b' : ImagesBatch)
    (all_res : list (outcome payload)) (args : list value)
    (kwargs : gmap string value) (e : exception)
    (H : assemble all_res args kwargs b = (Exc e, b')) :
  b' = b.
Proof. by eapply all_or_nothing_assemble. Qed.

Lemma assemble_raises_unchanged_witness :
  assemble [Val (PArray (NDArray [1; 2] [1; 2]%Z)); Val (PArray (NDArray [2; 1] [3; 4]%Z))]
    [] ∅ fresh3
  = (raise ValueError
       "all the input array dimensions except for the concatenation axis must match exactly",
     fresh3)
  ∧ fresh3 = fresh3.
Proof.
  split; [reflexivity|].
  apply (assemble_raises_unchanged fresh3 fresh3
           [Val (PArray (NDArray [1; 2] [1; 2]%Z)); Val (PArray (NDArray [2; 1] [3; 4]%Z))]
           [] ∅ _ eq_refl).
Defined.

Lemma setattr_images_spec b l v :
  slots b = Some l →
  py_setattr (VStr "images") v b
  = if decide (0 < length l) then (Val tt, with_data b (VList (<[0:=v]> l)))
    else (raise IndexError "list assignment index out of range", b).
Proof.
  intros Hs. unfold py_setattr. rewrite decide_True by done.
  unfold images_setter. apply (write_slot_slots _ _ _ _ Hs).
Qed.

(** X5: a successful [assemble] with the default target returns the
    batch and has replaced slot 0 of the container and nothing else:
    [images] reads the assembled value, [labels] and [masks] read what
    they read before, the index and the other attributes are the same. *)
Theorem assemble_changes_images_only (b b' : ImagesBatch) (l : list value)
    (all_res : list (outcome payload)) (args : list value)
    (kwargs : gmap string value) (r : retval)
    (Hs : slots b = Some l)
    (Ht : target_attr kwargs = VStr "images")
    (H : assemble all_res args kwargs b = (Val r, b')) :
  r = RSelf
  ∧ ∃ v, b' = with_data b (VList (<[0:=v]> l))
       ∧ images b' = (Val v, b')
       ∧ ∀ k, k ≠ 0 → (read_slot k b').1 = (read_slot k b).1.
Proof.
  assert (Hset : ∀ v r0 b0,
    (py_setattr (VStr "images") v;; mret r0) b = (Val r, b0) →
    r = r0 ∧ b0 = with_data b (VList (<[0:=v]> l)) ∧ 0 < length l).
  { intros v r0 b0. unfold mbind, M_bind.
    rewrite (setattr_images_spec _ _ _ Hs). case_decide; [|done].
    by intros [= <- <-]. }
  assert (Hfin : ∀ v, r = RSelf ∧ b' = with_data b (VList (<[0:=v]> l)) ∧ 0 < length l →
    r = RSelf ∧ ∃ v, b' = with_data b (VList (<[0:=v]> l))
       ∧ images b' = (Val v, b')
       ∧ ∀ k, k ≠ 0 → (read_slot k b').1 = (read_slot k b).1).
  { intros v (-> & -> & Hl). split; [done|]. exists v. split; [done|]. split.
    - unfold images. rewrite (read_slot_spec _ (<[0:=v]> l)) by done.
      by rewrite list_lookup_insert_eq.
    - intros k Hk. rewrite (read_slot_spec _ (<[0:=v]> l)) by done.
      rewrite (read_slot_spec _ l) by done. simpl.
      by rewrite list_lookup_insert_ne. }
  unfold assemble in H. destruct (any_action_failed all_res); [done|].
  rewrite Ht in H. cbv zeta in H.
  unfold mbind at 1, M_bind at 1, lift at 1 in H.
  destruct (py_getitem _ 0) as [first|]; [|done].
  destruct (isinstance_Image first).
  - eapply Hfin, Hset, H.
  - unfold mbind at 2, M_bind at 2, lift at 1 in H.
    destruct (np_dstack all_res) as [stacked|].
    + unfold mbind at 2, M_bind at 2, lift at 1 in H.
      destruct (transpose201 stacked) as [arr|].
      * eapply Hfin, Hset, H.
      * done.
    + done.
Qed.

Lemma assemble_changes_images_only_witness :
  ∃ v, with_data fresh3 (VList [VArray (NDArray [1; 1; 1] [5]%Z); VNone; VNone])
       = with_data fresh3 (VList (<[0:=v]> [VNone; VNone; VNone])).
Proof.
  destruct (assemble_changes_images_only fresh3
              (with_data fresh3 (VList [VArray (NDArray [1; 1; 1] [5]%Z); VNone; VNone]))
              [VNone; VNone; VNone] [Val (PInt 5)] [] ∅ RSelf)
    as (_ & v & Hv & _); [reflexivity | reflexivity | reflexivity |].
  exists v. exact Hv.
Defined.

(** X6: [masks] and [data] cannot be targets of [assemble]: on a
    three-slot container every list of successful results is refused and
    the batch stays as it was; a list of PIL images ends in the
    [IndexError] of the masks setter, respectively in the
    [AttributeError] of the property without a setter. *)
Theorem assemble_refused_targets (b : ImagesBatch) (x0 x1 x2 : value)
    (ps : list payload) (args : list value) (kwargs : gmap string value)
    (Hs : slots b = Some [x0; x1; x2]) :
  (target_attr kwargs = VStr "masks" →
     (∃ e, assemble (Val <$> ps) args kwargs b = (Exc e, b))
     ∧ ∀ a ps', ps = PImage a :: ps' →
         assemble (Val <$> ps) args kwargs b
         = (raise IndexError "list assignment index out of range", b))
  ∧ (target_attr kwargs = VStr "data" →
     (∃ e, assemble (Val <$> ps) args kwargs b = (Exc e, b))
     ∧ ∀ a ps', ps = PImage a :: ps' →
         assemble (Val <$> ps) args kwargs b
         = (raise AttributeError "can't set attribute", b)).
Proof.
  assert (Hgen : ∀ err : outcome unit,
    (∀ v, py_setattr (target_attr kwargs) v b = (err, b)) →
    (∀ v, (py_setattr (target_attr kwargs) v;; mret RSelf) b
          = (match err with Val _ => Val RSelf | Exc e => Exc e end, b)) →
    is_failure err = true →
    (∃ e, assemble (Val <$> ps) args kwargs b = (Exc e, b))
    ∧ ∀ a ps', ps = PImage a :: ps' →
        assemble (Val <$> ps) args kwargs b
        = (match err with Val _ => Val RSelf | Exc e => Exc e end, b)).
  { intros err _ Hrun Herr. destruct err as [|e0]; [done|]. split.
    - destruct ps as [|p0 ps']; [by eexists|].
      rewrite assemble_successes. destruct p0.
      + rewrite Hrun. by eexists.
      + destruct (_ ≫= transpose201); [|by eexists]. rewrite Hrun. by eexists.
      + destruct (_ ≫= transpose201); [|by eexists]. rewrite Hrun. by eexists.
    - intros a ps' ->. by rewrite assemble_successes, Hrun. }
  split; intros Ht; rewrite Ht in Hgen.
  - apply (Hgen (raise IndexError "list assignment index out of range")); [| |done].
    + intros v. unfold py_setattr.
      rewrite decide_False, decide_False, decide_True by done.
      unfold masks_setter. by rewrite (write_slot_slots _ _ _ _ Hs).
    + intros v. apply bind_exc. unfold py_setattr.
      rewrite decide_False, decide_False, decide_True by done.
      unfold masks_setter. by rewrite (write_slot_slots _ _ _ _ Hs).
  - apply (Hgen (raise AttributeError "can't set attribute")); [done| |done].
    intros v. by apply bind_exc.
Qed.

Lemma assemble_refused_targets_witness :
  assemble [Val (PImage (NDArray [1; 1] [5]%Z))] []
    {[ "attr" := VStr "masks" ]} fresh3
  = (raise IndexError "list assignment index out of range", fresh3).
Proof.
  destruct (assemble_refused_targets fresh3 VNone VNone VNone
              [PImage (NDArray [1; 1] [5]%Z)] [] {[ "attr" := VStr "masks" ]})
    as [H _]; [reflexivity |].
  destruct (H eq_refl) as [_ H'].
  exact (H' (NDArray [1; 1] [5]%Z) [] eq_refl).
Defined.

(** ** More on [load] *)

(** [load] without a format: the new container is computed from the
    source and the identifiers alone and assigned at the very end. *)
Lemma load_spec b src :
  load src VNone b
  = match loaded_data (index b) src with
    | Val d => (Val RSelf, with_data b d)
    | Exc e => (Exc e, b)
    end.
Proof.
  unfold load, action, loaded_data. change (is_None VNone) with true. cbv iota.
  destruct src as [ | | | | | | |items| ];
    try (unfold indices, self, lift, set__data, with_data;
         unfold mbind, M_bind, outcome_bind, mret, M_ret, outcome_ret;
         by destruct (py_getitem_array _ (index b))).
  unfold mbind at 1, M_bind at 1. unfold mbind at 1, M_bind at 1.
  rewrite (mapM_reading _ (λ i, loaded_slot (index b) (items !! i)))
    by (intros i; apply load_slot_run).
  unfold mbind, outcome_bind.
  by destruct (mapM _ (seq 0 3)).
Qed.

Lemma mapM_outcome_length {X A} (g : X → outcome A) (l : list X) (s : list A) :
  mapM g l = Val s → length s = length l.
Proof.
  revert s. induction l as [|x l IH]; intros s.
  - by intros [= <-].
  - change (mapM g (x :: l)) with (g x ≫= λ y, mapM g l ≫= λ k, mret (y :: k)).
    destruct (g x) as [y|]; [|done]. simpl.
    destruct (mapM g l) as [k|]; [|done]. simpl.
    intros [= <-]. simpl. f_equal. by apply IH.
Qed.

Lemma mapM_outcome_ext {X A} (g g' : X → outcome A) (l : list X) :
  (∀ x, x ∈ l → g x = g' x) → mapM g l = mapM g' l.
Proof.
  induction l as [|x l IH]; intros H; [done|].
  change (mapM g (x :: l)) with (g x ≫= λ y, mapM g l ≫= λ k, mret (y :: k)).
  change (mapM g' (x :: l)) with (g' x ≫= λ y, mapM g' l ≫= λ k, mret (y :: k)).
  rewrite (H x) by left. rewrite IH; [done|]. intros y Hy. apply H. by right.
Qed.

Lemma loaded_data_three ids src d :
  loaded_data ids src = Val d → ∃ x0 x1 x2, d = VTuple [x0; x1; x2].
Proof.
  unfold loaded_data. destruct src;
    try (destruct (py_getitem_array _ ids); [|done]; intros [= <-]; by eexists _, _, _).
  destruct (mapM _ (seq 0 3)) as [s|] eqn:E; [|done]. intros [= <-].
  apply mapM_outcome_length in E. simpl in E.
  destruct s as [|x0 [|x1 [|x2 [|? ?]]]]; try done. by eexists _, _, _.
Qed.

(** X7: when [load] raises, be it for the format, for a source that
    cannot be subscripted or for an identifier out of range in any of
    the containers, the batch is exactly as it was: no slot of a failed
    load is kept. *)
Theorem load_raises_unchanged (b b' : ImagesBatch) (src fmt : value) (e : exception)
    (H : load src fmt b = (Exc e, b')) :
  b' = b.
Proof.
  destruct fmt; try (unfold load, action in H; simpl in H; by injection H).
  rewrite load_spec in H. destruct (loaded_data (index b) src); [done|].
  by injection H.
Qed.

Lemma load_raises_unchanged_witness :
  load (VTuple [VArray (NDArray [3] [10; 20; 30]%Z); VArray (NDArray [2] [1; 2]%Z)])
    VNone fresh3
  = (raise IndexError "index is out of bounds for axis 0", fresh3)
  ∧ fresh3 = fresh3.
Proof.
  split; [reflexivity|].
  apply (load_raises_unchanged fresh3 fresh3
           (VTuple [VArray (NDArray [3] [10; 20; 30]%Z); VArray (NDArray [2] [1; 2]%Z)])
           VNone _ eq_refl).
Defined.

(** X8: a successful [load] returns the batch, replaces the container by
    a tuple of exactly three slots whatever it held before, and touches
    nothing else; assigning [masks] afterwards raises [IndexError]. *)
Theorem load_gives_three_slots (b b' : ImagesBatch) (src fmt : value) (r : retval)
    (H : load src fmt b = (Val r, b')) :
  r = RSelf
  ∧ ∃ x0 x1 x2,
      b' = with_data b (VTuple [x0; x1; x2])
      ∧ images b' = (Val x0, b') ∧ labels b' = (Val x1, b') ∧ masks b' = (Val x2, b')
      ∧ ∀ v, masks_setter v b'
             = (raise IndexError "list assignment index out of range", b').
Proof.
  destruct fmt; try (unfold load, action in H; simpl in H; done).
  rewrite load_spec in H. destruct (loaded_data (index b) src) as [d|] eqn:E; [|done].
  injection H as <- <-. split; [done|].
  destruct (loaded_data_three _ _ _ E) as (x0 & x1 & x2 & ->).
  exists x0, x1, x2. split; [done|].
  assert (Hs : slots (with_data b (VTuple [x0; x1; x2])) = Some [x0; x1; x2]) by done.
  split; [|split; [|split]].
  - by apply (read_slot_slots _ _ _ _ Hs).
  - by apply (read_slot_slots _ _ _ _ Hs).
  - by apply (read_slot_slots _ _ _ _ Hs).
  - intros v. unfold masks_setter. by rewrite (write_slot_slots _ _ _ _ Hs).
Qed.

Lemma load_gives_three_slots_witness :
  ∃ x0 x1 x2,
    with_data fresh3 (VTuple [VArray (NDArray [3] [10; 20; 30]%Z); VNone; VNone])
    = with_data fresh3 (VTuple [x0; x1; x2]).
Proof.
  destruct (load_gives_three_slots fresh3
              (with_data fresh3 (VTuple [VArray (NDArray [3] [10; 20; 30]%Z); VNone; VNone]))
              (VArray (NDArray [3] [10; 20; 30]%Z)) VNone RSelf eq_refl)
    as (_ & x0 & x1 & x2 & H & _).
  exists x0, x1, x2. exact H.
Defined.

(** X9: what [load] stores does not depend on what the container held:
    the same source gives the same container after any earlier
    assignment, and loading the same source a second time changes
    nothing. *)
Theorem load_forgets_previous_data (b b' : ImagesBatch) (src : value) (r : retval)
    (H : load src VNone b = (Val r, b')) :
  load src VNone b' = (Val r, b')
  ∧ ∀ d, load src VNone (with_data b d) = (Val r, b').
Proof.
  rewrite load_spec in H. destruct (loaded_data (index b) src) as [d0|] eqn:E; [|done].
  injection H as <- <-. split.
  - rewrite load_spec. simpl. by rewrite E.
  - intros d. rewrite load_spec. simpl. by rewrite E.
Qed.

Lemma load_forgets_previous_data_witness :
  load (VArray (NDArray [3] [10; 20; 30]%Z)) VNone
    (with_data fresh3 (VTuple [VArray (NDArray [3] [10; 20; 30]%Z); VNone; VNone]))
  = (Val RSelf,
     with_data fresh3 (VTuple [VArray (NDArray [3] [10; 20; 30]%Z); VNone; VNone])).
Proof.
  apply (load_forgets_previous_data fresh3
           (with_data fresh3 (VTuple [VArray (NDArray [3] [10; 20; 30]%Z); VNone; VNone]))
           (VArray (NDArray [3] [10; 20; 30]%Z)) RSelf eq_refl).
Defined.

(** X10: of a tuple [load] looks at the first three entries only: any
    further entry is ignored, whatever it is. *)
Theorem load_ignores_further_entries (b : ImagesBatch) (items : list value) :
  load (VTuple items) VNone b = load (VTuple (take 3 items)) VNone b.
Proof.
  rewrite !load_spec. unfold loaded_data.
  rewrite (mapM_outcome_ext _ (λ i, loaded_slot (index b) (take 3 items !! i))); [done|].
  intros i [_ Hi]%elem_of_seq. by rewrite lookup_take_lt by lia.
Qed.

Lemma loaded_data_single ids src :
  is_tuple src = false →
  loaded_data ids src = x ← py_getitem_array src ids; mret (VTuple [x; VNone; VNone]).
Proof. by destruct src. Qed.

(** X11: a source that is not a tuple is loaded exactly as the tuple
    holding it alone: slot 0 is the source indexed by the identifiers,
    the other two slots are [None], and the same errors are raised. *)
Theorem load_single_source (b : ImagesBatch) (src fmt : value)
    (H : is_tuple src = false) :
  load src fmt b = load (VTuple [src]) fmt b
  ∧ ∀ x, py_getitem_array src (index b) = Val x →
      fmt = VNone →
      load src fmt b = (Val RSelf, with_data b (VTuple [x; VNone; VNone])).
Proof.
  destruct fmt; try (split; [done|]; by intros).
  rewrite !load_spec, (loaded_data_single _ src H).
  assert (E : loaded_data (index b) (VTuple [src])
              = x ← py_getitem_array src (index b); mret (VTuple [x; VNone; VNone])).
  { unfold loaded_data. change (seq 0 3) with [0; 1; 2].
    cbv beta iota fix delta [mapM]. simpl.
    unfold mbind, outcome_bind, mret, outcome_ret.
    by destruct (py_getitem_array src (index b)). }
  rewrite E. split; [done|]. intros x Hx _. by rewrite Hx.
Qed.

Lemma load_single_source_witness :
  load (VArray (NDArray [3] [10; 20; 30]%Z)) VNone shuffled3
  = load (VTuple [VArray (NDArray [3] [10; 20; 30]%Z)]) VNone shuffled3.
Proof.
  destruct (load_single_source shuffled3 (VArray (NDArray [3] [10; 20; 30]%Z)) VNone
              eq_refl) as [H _].
  exact H.
Defined.

(** ** Stacking other ranks *)

Lemma dstack_atleast_3d arrs arrs' :
  atleast_3d <$> arrs = atleast_3d <$> arrs' → dstack arrs = dstack arrs'.
Proof. unfold dstack. by intros ->. Qed.

Lemma assemble_first_not_image b p0 ps args kwargs :
  isinstance_Image (payload_value p0) = false →
  assemble (Val <$> p0 :: ps) args kwargs b
  = match dstack (payload_array <$> p0 :: ps) ≫= transpose201 with
    | Val arr => (py_setattr (target_attr kwargs) (VArray arr);; mret RSelf) b
    | Exc e => (Exc e, b)
    end.
Proof. intros H. rewrite assemble_successes. by destruct p0. Qed.

Lemma assemble_not_images b (ps : list payload) args kwargs :
  ps ≠ [] →
  (∀ p, head ps = Some p → isinstance_Image (payload_value p) = false) →
  assemble (Val <$> ps) args kwargs b
  = match dstack (payload_array <$> ps) ≫= transpose201 with
    | Val arr => (py_setattr (target_attr kwargs) (VArray arr);; mret RSelf) b
    | Exc e => (Exc e, b)
    end.
Proof.
  intros Hne Hhead. destruct ps as [|p0 ps]; [done|].
  apply assemble_first_not_image. by apply Hhead.
Qed.

(** X12: integer results are stacked into an array of shape (n, 1, 1)
    holding them in order; its entry at position p is the 1 by 1 array
    around the p-th integer. *)
Theorem assemble_stacks_integers (b : ImagesBatch) (zs : list Z)
    (args : list value) (kwargs : gmap string value)
    (Hne : zs ≠ []) :
  assemble (Val ∘ PInt <$> zs) args kwargs b
  = (py_setattr (target_attr kwargs) (VArray (NDArray [length zs; 1; 1] zs));;
     mret RSelf) b
  ∧ ∀ p z, zs !! p = Some z →
      py_getitem (VArray (NDArray [length zs; 1; 1] zs)) p
      = Val (VArray (NDArray [1; 1] [z])).
Proof.
  set (cells := (λ z, NDArray [1; 1] [z]) <$> zs).
  assert (Hshape : ∀ a, a ∈ cells → shape a = [1; 1]).
  { by intros a (z & -> & _)%list_elem_of_fmap. }
  assert (Hvalid : ∀ a, a ∈ cells → valid a).
  { by intros a (z & -> & _)%list_elem_of_fmap. }
  assert (Hlen : length cells = length zs) by apply length_fmap.
  assert (Helems : flat_map elems cells = zs).
  { unfold cells. clear. induction zs as [|z zs IH]; csimpl; [done|]. by rewrite IH. }
  split.
  - rewrite (list_fmap_compose PInt Val).
    rewrite assemble_not_images;
      [|by destruct zs|by destruct zs; intros p [= <-]].
    rewrite (dstack_atleast_3d _ cells).
    + rewrite (stack_2d cells 1 1 Hshape Hvalid).
      * by rewrite Hlen, Helems.
      * unfold cells. by destruct zs.
    + unfold cells. rewrite <- !list_fmap_compose. by apply list_fmap_ext.
  - intros p z Hp.
    pose proof (stacked_row cells 1 1 Hshape Hvalid p (NDArray [1; 1] [z])) as Hrow.
    rewrite Hlen, Helems in Hrow. apply Hrow.
    unfold cells. by rewrite list_lookup_fmap, Hp.
Qed.

Lemma assemble_stacks_integers_witness :
  assemble (Val ∘ PInt <$> [4; 5]%Z) [] ∅ fresh3
  = (py_setattr (target_attr ∅) (VArray (NDArray [length [4; 5]%Z; 1; 1] [4; 5]%Z));;
     mret RSelf) fresh3.
Proof.
  destruct (assemble_stacks_integers fresh3 [4; 5]%Z [] ∅) as [H _]; [discriminate|].
  exact H.
Defined.

(** X13: one-dimensional results of one length N are stacked into an
    array of shape (n, 1, N): the entry at position p is the p-th array
    under an extra leading axis of length one. *)
Theorem assemble_stacks_vectors (b : ImagesBatch) (arrs : list ndarray) (N : nat)
    (args : list value) (kwargs : gmap string value)
    (Hne : arrs ≠ [])
    (Hshape : Forall (λ a, shape a = [N] ∧ valid a) arrs) :
  assemble (Val ∘ PArray <$> arrs) args kwargs b
  = (py_setattr (target_attr kwargs)
       (VArray (NDArray [length arrs; 1; N] (flat_map elems arrs)));;
     mret RSelf) b
  ∧ ∀ p a, arrs !! p = Some a →
      py_getitem (VArray (NDArray [length arrs; 1; N] (flat_map elems arrs))) p
      = Val (VArray (NDArray [1; N] (elems a))).
Proof.
  rewrite Forall_forall in Hshape.
  set (rows := (λ a, NDArray [1; N] (elems a)) <$> arrs).
  assert (Hs : ∀ a, a ∈ rows → shape a = [1; N]).
  { by intros a (a0 & -> & _)%list_elem_of_fmap. }
  assert (Hv : ∀ a, a ∈ rows → valid a).
  { intros a (a0 & -> & [Hs0 Hv0]%Hshape)%list_elem_of_fmap.
    unfold valid in *. simpl. rewrite Hv0, Hs0. simpl. lia. }
  assert (Hlen : length rows = length arrs) by apply length_fmap.
  assert (Helems : flat_map elems rows = flat_map elems arrs).
  { unfold rows. by rewrite flat_map_fmap. }
  split.
  - rewrite (list_fmap_compose PArray Val).
    rewrite assemble_not_images;
      [|by destruct arrs|by destruct arrs; intros p [= <-]].
    rewrite payload_array_PArray.
    rewrite (dstack_atleast_3d _ rows).
    + rewrite (stack_2d rows 1 N Hs Hv).
      * by rewrite Hlen, Helems.
      * unfold rows. by destruct arrs.
    + unfold rows. rewrite <- list_fmap_compose. apply list_fmap_ext.
      intros i a [Hsa _]%list_elem_of_lookup_2%Hshape. simpl.
      unfold atleast_3d. simpl. by rewrite Hsa.
  - intros p a Hp.
    pose proof (stacked_row rows 1 N Hs Hv p (NDArray [1; N] (elems a))) as Hrow.
    rewrite Hlen, Helems in Hrow. apply Hrow.
    unfold rows. by rewrite list_lookup_fmap, Hp.
Qed.

Lemma assemble_stacks_vectors_witness :
  assemble (Val ∘ PArray <$> [NDArray [2] [1; 2]%Z; NDArray [2] [3; 4]%Z]) [] ∅ fresh3
  = (Val RSelf,
     with_data fresh3 (VList [VArray (NDArray [2; 1; 2] [1; 2; 3; 4]%Z); VNone; VNone])).
Proof.
  destruct (assemble_stacks_vectors fresh3
              [NDArray [2] [1; 2]%Z; NDArray [2] [3; 4]%Z] 2 [] ∅) as [H _].
  - discriminate.
  - repeat constructor.
  - rewrite H. reflexivity.
Defined.

Lemma nth_chunk o n k (l : list Z) :
  k < n → nth k (chunk o n l) 0%Z = nth (o * n + k) l 0%Z.
Proof.
  intros Hk. unfold chunk. rewrite !nth_lookup.
  by rewrite lookup_take_lt, lookup_drop.
Qed.

Lemma length_chunk o n (l : list Z) :
  (o + 1) * n ≤ length l → length (chunk o n l) = n.
Proof. intros H. unfold chunk. rewrite length_take, length_drop. nia. Qed.

(** Walking [n * c] positions is walking [n] groups of [c]. *)
Lemma flat_map_seq_groups {Y} (g : nat → list Y) n c :
  flat_map g (seq 0 (n * c))
  = flat_map (λ t, flat_map (λ k, g (t * c + k)) (seq 0 c)) (seq 0 n).
Proof.
  induction n as [|n IH]; [done|].
  rewrite seq_S, flat_map_app, <- IH. simpl. rewrite app_nil_r.
  replace (c + n * c) with (n * c + c) by lia.
  rewrite seq_app, flat_map_app. f_equal. simpl.
  replace (seq (n * c) c) with (Nat.add (n * c) <$> seq 0 c)
    by (rewrite fmap_add_seq; f_equal; lia).
  by rewrite flat_map_fmap.
Qed.

(** A block of one of several groups laid end to end. *)
Lemma chunk_group {X} (F : X → list Z) (m c : nat) (xs : list X) t k x :
  (∀ y, y ∈ xs → length (F y) = c * m) →
  xs !! t = Some x → k < c →
  chunk (t * c + k) m (flat_map F xs) = chunk k m (F x).
Proof.
  revert t. induction xs as [|y xs IH]; intros [|t] Hlen Ht Hk; simpl in *; try done.
  - injection Ht as ->. unfold chunk.
    rewrite drop_app_le by (rewrite (Hlen x) by left; nia).
    rewrite take_app_le; [done|].
    rewrite length_drop, (Hlen x) by left. nia.
  - unfold chunk.
    rewrite drop_app_ge by (rewrite (Hlen y) by left; nia).
    rewrite (Hlen y) by left.
    replace ((c + t * c + k) * m - c * m) with ((t * c + k) * m) by nia.
    apply IH; [|done..]. intros z Hz. apply Hlen. by right.
Qed.

Lemma length_planes m c a : length (planes m c a) = c * m.
Proof.
  unfold planes.
  assert (H : ∀ ks, length (flat_map (λ k, plane m c k (elems a)) ks) = length ks * m).
  { induction ks as [|k ks IH]; [done|]. simpl. rewrite length_app, IH.
    unfold plane. by rewrite length_fmap, length_seq. }
  by rewrite H, length_seq.
Qed.

Section stack_channels.
(** Arrays of one shape [h] by [w] with [c] channels. *)
Variables (arrs : list ndarray) (h w c : nat).
Hypothesis Hshape : ∀ a, a ∈ arrs → shape a = [h; w; c].
Hypothesis Hvalid : ∀ a, a ∈ arrs → valid a.

Lemma length_elems_3d a : a ∈ arrs → length (elems a) = h * w * c.
Proof.
  intros Ha. pose proof (Hvalid a Ha) as Hv. unfold valid in Hv.
  rewrite Hv, (Hshape a Ha). simpl. lia.
Qed.

Lemma dstack_3d :
  arrs ≠ [] →
  dstack arrs
  = Val (NDArray [h; w; length arrs * c]
           (flat_map (λ o, flat_map (λ a, chunk o c (elems a)) arrs) (seq 0 (h * w)))).
Proof.
  intros Hne. unfold dstack.
  assert (Hid : atleast_3d <$> arrs = arrs).
  { rewrite <- (list_fmap_id arrs) at 2. apply list_fmap_ext.
    intros i a Ha%list_elem_of_lookup_2. unfold atleast_3d.
    pose proof (Hshape a Ha) as Hs. destruct a as [sh el]. simpl in *. by subst. }
  rewrite Hid, (concatenate2_uniform _ h w c []) by done.
  f_equal. f_equal. apply flat_map_ext_elem. intros o _.
  apply flat_map_ext_elem. intros a _. simpl. by rewrite Nat.mul_1_r.
Qed.

(** The element of the joined array at depth [t * c + k] over the grid
    position [o] is channel [k] of the [t]-th array at that position. *)
Lemma dstack_3d_nth o t k a :
  o < h * w → arrs !! t = Some a → k < c →
  nth (o * (length arrs * c) + (t * c + k))
    (flat_map (λ o, flat_map (λ a, chunk o c (elems a)) arrs) (seq 0 (h * w))) 0%Z
  = nth (o * c + k) (elems a) 0%Z.
Proof.
  intros Ho Ht Hk.
  assert (Hrow : ∀ i, i < h * w → ∀ y, y ∈ arrs → length (chunk i c (elems y)) = c).
  { intros i Hi y Hy. apply length_chunk. rewrite (length_elems_3d y Hy). nia. }
  assert (Hrows : ∀ i, i < h * w →
    length (flat_map (λ a, chunk i c (elems a)) arrs) = length arrs * c).
  { intros i Hi. specialize (Hrow i Hi). clear -Hrow.
    induction arrs as [|y l IH]; [done|].
    simpl. rewrite length_app, Hrow, IH; [lia| |by left].
    intros z Hz. apply Hrow. by right. }
  rewrite (nth_flat_map_rows _ (length arrs * c) _ o (t * c + k) o).
  - rewrite (nth_flat_map_rows _ c arrs t k a); [|by apply Hrow|done..].
    by apply nth_chunk.
  - intros i [_ Hi]%elem_of_seq. by apply Hrows.
  - by apply lookup_seq_lt.
  - apply lookup_lt_Some in Ht. nia.
Qed.

Lemma stack_3d :
  arrs ≠ [] →
  dstack arrs ≫= transpose201
  = Val (NDArray [length arrs * c; h; w] (flat_map (planes (h * w) c) arrs)).
Proof.
  intros Hne. rewrite dstack_3d by done.
  unfold transpose201. simpl. f_equal. f_equal.
  rewrite flat_map_seq_groups.
  rewrite <- (flat_map_nth_seq (planes (h * w) c) arrs (NDArray [] [])).
  apply flat_map_ext_elem. intros t [_ Ht]%elem_of_seq. simpl in Ht.
  destruct (lookup_lt_is_Some_2 arrs t Ht) as [a Ha].
  rewrite (nth_lookup_Some _ _ _ _ Ha). unfold planes.
  apply flat_map_ext_elem. intros k [_ Hk]%elem_of_seq. simpl in Hk.
  rewrite (flat_map_grid (λ o, nth (o * (length arrs * c) + (t * c + k)) _ 0%Z)).
  unfold plane. apply list_fmap_ext. intros i o [-> Ho]%lookup_seq. simpl.
  by apply dstack_3d_nth.
Qed.

Lemma length_plane m k l : length (plane m c k l) = m.
Proof. unfold plane. by rewrite length_fmap, length_seq. Qed.

Lemma stacked_plane t k a :
  arrs !! t = Some a → k < c →
  py_getitem
    (VArray (NDArray [length arrs * c; h; w] (flat_map (planes (h * w) c) arrs)))
    (t * c + k)
  = Val (VArray (NDArray [h; w] (plane (h * w) c k (elems a)))).
Proof.
  intros Ht Hk. unfold py_getitem. simpl.
  rewrite decide_True by (apply lookup_lt_Some in Ht; nia).
  unfold row. simpl. f_equal. f_equal. f_equal.
  replace (h * (w * 1)) with (h * w) by lia.
  rewrite (chunk_group (planes (h * w) c) (h * w) c arrs t k a); [| |done..].
  - unfold planes.
    apply (chunk_flat_map (λ k, plane (h * w) c k (elems a)) (h * w) (seq 0 c) k k).
    + intros y _. apply length_plane.
    + by apply lookup_seq_lt.
  - intros y _. apply length_planes.
Qed.
End stack_channels.

(** X14: results with a channel axis, of one shape (h, w, c), are not
    stacked item by item: the assembled array has shape (n * c, h, w)
    and its entry at position t * c + k is channel k of the t-th
    result. *)
Theorem assemble_stacks_channel_planes (b : ImagesBatch) (arrs : list ndarray)
    (h w c : nat) (args : list value) (kwargs : gmap string value)
    (Hne : arrs ≠ [])
    (Hshape : Forall (λ a, shape a = [h; w; c] ∧ valid a) arrs) :
  assemble (Val ∘ PArray <$> arrs) args kwargs b
  = (py_setattr (target_attr kwargs)
       (VArray (NDArray [length arrs * c; h; w] (flat_map (planes (h * w) c) arrs)));;
     mret RSelf) b
  ∧ ∀ t k a, arrs !! t = Some a → k < c →
      py_getitem
        (VArray (NDArray [length arrs * c; h; w] (flat_map (planes (h * w) c) arrs)))
        (t * c + k)
      = Val (VArray (NDArray [h; w] (plane (h * w) c k (elems a)))).
Proof.
  rewrite Forall_forall in Hshape.
  assert (Hs : ∀ a, a ∈ arrs → shape a = [h; w; c]) by (intros a Ha; by apply Hshape).
  assert (Hv : ∀ a, a ∈ arrs → valid a) by (intros a Ha; by apply Hshape).
  split.
  - rewrite (list_fmap_compose PArray Val).
    rewrite assemble_not_images;
      [|by destruct arrs|by destruct arrs; intros p [= <-]].
    by rewrite payload_array_PArray, (stack_3d arrs h w c Hs Hv Hne).
  - intros t k a Ht Hk. by apply stacked_plane.
Qed.

Lemma assemble_stacks_channel_planes_witness :
  assemble (Val ∘ PArray <$> [NDArray [1; 2; 2] [1; 2; 3; 4]%Z;
                              NDArray [1; 2; 2] [5; 6; 7; 8]%Z]) [] ∅ fresh3
  = (Val RSelf,
     with_data fresh3
       (VList [VArray (NDArray [4; 1; 2] [1; 3; 2; 4; 5; 7; 6; 8]%Z); VNone; VNone])).
Proof.
  destruct (assemble_stacks_channel_planes fresh3
              [NDArray [1; 2; 2] [1; 2; 3; 4]%Z; NDArray [1; 2; 2] [5; 6; 7; 8]%Z]
              1 2 2 [] ∅) as [H _].
  - discriminate.
  - repeat constructor.
  - rewrite H. reflexivity.
Defined.

(** ** More on [apply_transform] and [apply_transform_all] *)




(** Without a source attribute the body runs in the order of its lines:
    the destination attribute, the position, the call, the store. *)
Lemma apply_transform_run b ix dst func args kwargs :
  apply_transform ix VNone dst func args kwargs b
  = match (py_getattr dst b).1 with
    | Val dst_attr =>
        match (get_pos ix b).1 with
        | Val pos =>
            match func args kwargs b with
            | (Val v, b1) =>
                match store_item dst dst_attr pos v b1 with
                | (Val _, b2) => (Val RNone, b2)
                | (Exc e, b2) => (Exc e, b2)
                end
            | (Exc e, b1) => (Exc e, b1)
            end
        | Exc e => (Exc e, b)
        end
    | Exc e => (Exc e, b)
    end.
Proof.
  unfold apply_transform. change (is_None VNone) with true. cbv iota.
  rewrite (bind_val _ _ b args b) by done.
  unfold mbind at 1, M_bind at 1.
  pose proof (reads_only_getattr dst b) as Hd.
  destruct (py_getattr dst b) as [[dst_attr|e] b0]; cbn [fst snd] in *; subst b0;
    [|done].
  unfold mbind at 1, M_bind at 1.
  pose proof (reads_only_get_pos ix b) as Hp.
  destruct (get_pos ix b) as [[pos|e] b0]; cbn [fst snd] in *; subst b0; [|done].
  unfold mbind at 1, M_bind at 1.
  destruct (func args kwargs b) as [[v|e] b1]; [|done].
  unfold mbind, M_bind.
  by destruct (store_item dst dst_attr pos v b1) as [[[]|e] b2].
Qed.



Lemma get_pos_run b ix p :
  list_find (λ y, y = ix) (index b) = Some (p, ix) → get_pos ix b = (Val p, b).
Proof.
  intros H. unfold get_pos, indices, self, mbind, M_bind, mret, M_ret.
  by rewrite H.
Qed.

(** X16: without a source attribute, and with a [func] that computes
    its result from its arguments alone, [apply_transform] calls [func]
    on the extra arguments and stores the result in the list held by
    [_new_attr] at the position of the identifier: the body returns
    [None] and [_new_attr] then reads the list with that one entry
    replaced.  If [func] raises, or the position is past the end of the
    list, nothing is stored and the batch is as it was. *)
Theorem apply_transform_stores_at_position (b : ImagesBatch) (ix : Z) (p : nat)
    (l : list value) (f : list value → gmap string value → outcome value)
    (args : list value) (kwargs : gmap string value)
    (Hattr : _new_attr b = VList l)
    (Hpos : list_find (λ y, y = ix) (index b) = Some (p, ix)) :
  match f args kwargs with
  | Val v =>
      if decide (p < length l)
      then ∃ b', apply_transform ix VNone (VStr "_new_attr") (pure_callable f)
                   args kwargs b = (Val RNone, b')
                 ∧ py_getattr (VStr "_new_attr") b' = (Val (VList (<[p:=v]> l)), b')
      else apply_transform ix VNone (VStr "_new_attr") (pure_callable f) args kwargs b
           = (raise IndexError "list assignment index out of range", b)
  | Exc e =>
      apply_transform ix VNone (VStr "_new_attr") (pure_callable f) args kwargs b
      = (Exc e, b)
  end.
Proof.
  assert (Hget : py_getattr (VStr "_new_attr") b = (Val (VList l), b)).
  { unfold py_getattr. repeat (rewrite decide_False by done).
    rewrite decide_True by done.
    unfold self, mbind, M_bind, mret, M_ret. by rewrite Hattr. }
  rewrite apply_transform_run, Hget, (get_pos_run _ _ _ Hpos). cbn [fst].
  unfold pure_callable, lift.
  destruct (f args kwargs) as [v|e]; [|done].
  unfold store_item, py_setitem, list_setitem.
  case_decide.
  - eexists. split.
    + unfold mbind at 1, M_bind at 1, lift at 1.
      unfold put_back. repeat (rewrite decide_False by done).
      rewrite decide_True by done. done.
    + unfold py_getattr. repeat (rewrite decide_False by done).
      by rewrite decide_True by done.
  - done.
Qed.

Lemma apply_transform_stores_at_position_witness :
  ∃ b', apply_transform 7 VNone (VStr "_new_attr") (constantly (VInt 5)) [] ∅
          (mkBatch [3; 7; 9]%Z VNone (VList [VNone; VNone; VNone]) ∅)
        = (Val RNone, b')
        ∧ py_getattr (VStr "_new_attr") b' = (Val (VList [VNone; VInt 5; VNone]), b').
Proof.
  exact (apply_transform_stores_at_position
           (mkBatch [3; 7; 9]%Z VNone (VList [VNone; VNone; VNone]) ∅) 7 1
           [VNone; VNone; VNone] (λ _ _, Val (VInt 5)) [] ∅ eq_refl eq_refl).
Defined.

(** X17: with a source attribute, [apply_transform_all] hands to [func]
    not the attribute but its items, as separate positional arguments;
    as soon as there is an extra positional argument it raises
    [TypeError] before calling [func]. *)
Theorem apply_transform_all_arguments (b : ImagesBatch) (src dst : value)
    (func : callable) (args : list value) (kwargs : gmap string value)
    (src_attr : value)
    (Hsrc : src ≠ VNone)
    (Hget : py_getattr src b = (Val src_attr, b)) :
  (args = [] →
     apply_transform_all src dst func args kwargs b
     = match py_iter src_attr with
       | Val items =>
           match (py_getattr dst b).1 with
           | Val _ =>
               match func items kwargs b with
               | (Val _, b1) => (Val RNone, b1)
               | (Exc e, b1) => (Exc e, b1)
               end
           | Exc e => (Exc e, b)
           end
       | Exc e => (Exc e, b)
       end)
  ∧ (args ≠ [] →
     apply_transform_all src dst func args kwargs b
     = (raise TypeError "tuple expected at most 1 argument", b)).
Proof.
  assert (Hn : is_None src = false) by by destruct src.
  rewrite apply_transform_all_run, Hn, Hget. cbn [fst]. split.
  - by intros ->.
  - intros Hargs. by destruct args as [|a args].
Qed.

Lemma apply_transform_all_arguments_witness :
  apply_transform_all (VStr "_new_attr") (VStr "images") (constantly VNone)
    [VInt 1] ∅ (mkBatch [0; 1]%Z VNone (VList [VInt 7; VInt 8]) ∅)
  = (raise TypeError "tuple expected at most 1 argument",
     mkBatch [0; 1]%Z VNone (VList [VInt 7; VInt 8]) ∅).
Proof.
  destruct (apply_transform_all_arguments
              (mkBatch [0; 1]%Z VNone (VList [VInt 7; VInt 8]) ∅)
              (VStr "_new_attr") (VStr "images") (constantly VNone) [VInt 1] ∅
              (VList [VInt 7; VInt 8])) as [_ H]; [discriminate | reflexivity |].
  apply H. discriminate.
Defined.
